(** * A shallow embedding of the PDF-to-HTML conversion backend

    Covers [backend/app/pdf_parser.py], [backend/app/html_generator.py],
    [backend/app/main.py] and [backend/app/exceptions.py].

    Python strings are sequences of code points, modelled as [list N]
    ([pystr]); Python's [len] is [length].  Floats coming out of the PDF
    library are finite binary values and are modelled exactly as [Q].
    External collaborators (PyMuPDF, pdfplumber, the [pdfimages] tool and
    the generative-model service) are parameters of the development: their
    answers are arbitrary functions, their effects are recorded in a trace. *)

From Stdlib Require Import List String Ascii Strings.Byte ZArith NArith QArith Qround Lia Lqa Sorting.Sorted.
Import ListNotations.

Open Scope nat_scope.
Open Scope list_scope.
Set Warnings "-register-all,-abstract-large-number".

(** ** Python strings *)

Definition pystr := list N.

Definition code_of (a : ascii) : N := N.of_nat (nat_of_ascii a).

(** A string literal of the source (all literals of the source are ASCII). *)
Definition lit (s : string) : pystr := map code_of (list_ascii_of_string s).

Definition nl : pystr := [10%N].
Definition dq : pystr := [34%N].

(** [sep.join(l)] *)
Fixpoint join (sep : pystr) (l : list pystr) : pystr :=
  match l with
  | [] => []
  | [x] => x
  | x :: r => x ++ sep ++ join sep r
  end.

(** Decimal digits of a natural number ([fuel] bounds the digit count). *)
Fixpoint dec_aux (fuel : nat) (n : N) (acc : pystr) : pystr :=
  match fuel with
  | O => acc
  | S f =>
      let d := (48 + N.modulo n 10)%N in
      let q := N.div n 10 in
      if (q =? 0)%N then d :: acc else dec_aux f q (d :: acc)
  end.

Definition dec (n : N) : pystr := dec_aux (S (N.size_nat n)) n [].

(** [str(i)] for a Python [int]. *)
Definition py_str_int (z : Z) : pystr :=
  if (z <? 0)%Z then lit "-" ++ dec (Z.abs_N z) else dec (Z.to_N z).

Definition py_str_nat (n : nat) : pystr := dec (N.of_nat n).

(** [str(l)] for a Python list of [int]s: ["[1, 2, 3]"]. *)
Definition py_str_int_list (l : list Z) : pystr :=
  lit "[" ++ join (lit ", ") (map py_str_int l) ++ lit "]".

(** [round(x)] for a Python [float]: round half to even. *)
Definition py_round (q : Q) : Z :=
  let f := Qfloor q in
  let r := (q - inject_Z f)%Q in
  match Qcompare r (1 # 2) with
  | Lt => f
  | Gt => (f + 1)%Z
  | Eq => if Z.even f then f else (f + 1)%Z
  end.

(** ** Data model *)

(** A text span as built by [extract_text_with_positions]. *)
Record text_span := mkSpan {
  text : pystr;
  bbox : list Q;
  font : pystr;
  size : Z;
  color : Z
}.

(** An image as built by [extract_images] / [_extract_images_with_fallback]. *)
Record image_asset := mkImage {
  name : pystr;
  bytes : list byte;
  page : nat
}.

(** A pdfplumber table cell is [None] or a [str]. *)
Definition cell := option pystr.
Definition table := list (list cell).

(** One entry of the sparse result of [extract_tables_with_pdfplumber]. *)
Record page_tables_entry := mkPageTables {
  page_number : nat;
  tables : list table
}.

(** ** [format_data_for_llm] *)

(** [str(c)] for a cell: [str(None)] is ["None"], [str(s)] is [s]. *)
Definition py_str_cell (c : cell) : pystr :=
  match c with
  | None => lit "None"
  | Some s => s
  end.

Definition format_text_block (block : text_span) : pystr :=
  lit "- Text: " ++ dq ++ text block ++ dq ++ lit " | Position (x1,y1,x2,y2): "
    ++ py_str_int_list (map py_round (bbox block)) ++ lit " | Size: "
    ++ py_str_int (size block).

Definition format_image (image : image_asset) : pystr :=
  lit "- Image Filename: " ++ dq ++ name image ++ dq.

(** [' | '.join(map(str, row))] *)
Definition row_str (row : list cell) : pystr :=
  join (lit " | ") (map py_str_cell row).

(** ['\n'.join([... for row in table])] *)
Definition table_str (t : table) : pystr := join nl (map row_str t).

Fixpoint format_tables_from (i : nat) (ts : list table) : list pystr :=
  match ts with
  | [] => []
  | t :: r =>
      (nl ++ lit "--- Table " ++ py_str_nat (i + 1) ++ lit " ---")
        :: table_str t :: format_tables_from (S i) r
  end.

Definition format_data_for_llm (page_text_blocks : list text_span)
    (page_image_data : list image_asset) (page_tables : list table) : pystr :=
  let formatted_strings :=
    [lit "**Text Elements:**"]
    ++ map format_text_block page_text_blocks
    ++ (match page_image_data with
        | [] => []
        | _ => (nl ++ lit "**Image Elements:**") :: map format_image page_image_data
        end)
    ++ (match page_tables with
        | [] => []
        | _ => (nl ++ lit "**PRE-EXTRACTED TABLES (MUST be formatted as Markdown tables):**")
                :: format_tables_from 0 page_tables
        end) in
  join nl formatted_strings.

(** ** Exceptions ([exceptions.py] and the library exceptions the code meets) *)

Inductive exn :=
| HTTPException (status_code : Z) (detail : pystr)
| PyExc (cls : string) (message : pystr).

(** The class and its bases, most derived first. *)
Definition class_mro (cls : string) : list string :=
  match cls with
  | "PDFProcessingError" => ["PDFProcessingError"; "Exception"]
  | "InvalidPDFError" => ["InvalidPDFError"; "PDFProcessingError"; "Exception"]
  | "PasswordProtectedPDFError" =>
      ["PasswordProtectedPDFError"; "PDFProcessingError"; "Exception"]
  | "CalledProcessError" => ["CalledProcessError"; "SubprocessError"; "Exception"]
  | "TimeoutExpired" => ["TimeoutExpired"; "SubprocessError"; "Exception"]
  | "FileNotFoundError" => ["FileNotFoundError"; "OSError"; "Exception"]
  (* PyMuPDF's own [pymupdf.FileNotFoundError], which derives from [RuntimeError] *)
  | "pymupdf.FileNotFoundError" => ["pymupdf.FileNotFoundError"; "RuntimeError"; "Exception"]
  | "FileDataError" => ["FileDataError"; "RuntimeError"; "Exception"]
  | c => [c; "Exception"]
  end%string.

Definition isinstance (e : exn) (base : string) : bool :=
  match e with
  | HTTPException _ _ => orb (String.eqb base "HTTPException") (String.eqb base "Exception")
  | PyExc cls _ => existsb (String.eqb base) (class_mro cls)
  end.

(** [PasswordProtectedPDFError()] and [InvalidPDFError(msg)] of [exceptions.py]. *)
Definition PasswordProtectedPDFError : exn :=
  PyExc "PasswordProtectedPDFError"
    (lit "The PDF is password-protected. Please provide a valid password.").
Definition InvalidPDFError (message : pystr) : exn := PyExc "InvalidPDFError" message.

(** ** Documents as PyMuPDF presents them *)

(** A span of [page.get_text("dict")], before rounding. *)
Record raw_span := mkRawSpan {
  rs_text : pystr;
  rs_bbox : list Q;
  rs_font : pystr;
  rs_size : Q;
  rs_color : Z
}.

Record block := mkBlock {
  block_type : Z;
  block_lines : list (list raw_span)   (** [block["lines"]], each [line["spans"]] *)
}.

(** What PyMuPDF reads from a file's contents. *)
Record pdf_data := mkPdfData {
  is_encrypted : bool;
  authenticate_ok : pystr -> bool;       (** [doc.authenticate(pw)] succeeds *)
  pd_page_count : nat;
  page_blocks : list (list block);       (** [get_text("dict")["blocks"]] per page *)
  page_image_xrefs : list (list Z);      (** xrefs of [get_page_images(p, full=True)] *)
  extract_image : Z -> list byte * pystr (** [extract_image(xref)]: ["image"], ["ext"] *)
}.

(** An open [fitz.Document]: a handle into the world's document table. *)
Record fitz_doc := mkDoc {
  doc_id : nat;
  doc_name : pystr;
  doc_data : pdf_data
}.

(** ** Effects *)

Record llm_call := mkCall {
  system_msg : pystr;
  human_msg : pystr
}.

Inductive zdata :=
| ZStr (s : pystr)
| ZBytes (b : list byte).

Inductive event :=
| EvReadBody
| EvFitzOpen (path : pystr)
| EvDocClose (id : nat)
| EvPdfplumber (path : pystr)
| EvPdfimages (path : pystr)
| EvLLM (c : llm_call)
| EvZipWrite (entry : pystr) (data : zdata)
| EvRemove (path : pystr).

Record world := mkWorld {
  trace : list event;
  files : list (pystr * list byte);
  closed_docs : list nat;
  next_doc : nat;
  zip_buffer : list (pystr * zdata);
  frame_temp : pystr;            (** local [temp_file_path] of the endpoint *)
  frame_doc : option fitz_doc    (** local [doc] of the endpoint *)
}.

Definition set_trace (t : list event) (w : world) : world :=
  mkWorld t (files w) (closed_docs w) (next_doc w) (zip_buffer w) (frame_temp w) (frame_doc w).
Definition set_files (fs : list (pystr * list byte)) (w : world) : world :=
  mkWorld (trace w) fs (closed_docs w) (next_doc w) (zip_buffer w) (frame_temp w) (frame_doc w).
Definition set_closed_docs (c : list nat) (w : world) : world :=
  mkWorld (trace w) (files w) c (next_doc w) (zip_buffer w) (frame_temp w) (frame_doc w).
Definition set_next_doc (n : nat) (w : world) : world :=
  mkWorld (trace w) (files w) (closed_docs w) n (zip_buffer w) (frame_temp w) (frame_doc w).
Definition set_zip_buffer (z : list (pystr * zdata)) (w : world) : world :=
  mkWorld (trace w) (files w) (closed_docs w) (next_doc w) z (frame_temp w) (frame_doc w).
Definition set_frame_temp (t : pystr) (w : world) : world :=
  mkWorld (trace w) (files w) (closed_docs w) (next_doc w) (zip_buffer w) t (frame_doc w).
Definition set_frame_doc (d : option fitz_doc) (w : world) : world :=
  mkWorld (trace w) (files w) (closed_docs w) (next_doc w) (zip_buffer w) (frame_temp w) d.

(** The external collaborators: their answers are free. *)
Record externals := mkExternals {
  llm : llm_call -> exn + pystr;
  fitz_parse : list byte -> exn + pdf_data;
  plumber_tables : list byte -> exn + list (list table);   (** [page.extract_tables()] per page *)
  pdfimages_tool : option (list byte) -> exn + list (pystr * list byte);
      (** the run of [pdfimages -all] on the file (if it exists): the files it
          leaves in the scratch directory, in [os.listdir] order *)
  temp_path : pystr                                         (** [NamedTemporaryFile().name] *)
}.

Definition M (A : Type) : Type := world -> (exn + A) * world.

Definition ret {A} (a : A) : M A := fun w => (inr a, w).
Definition bind {A B} (m : M A) (k : A -> M B) : M B :=
  fun w => match m w with
           | (inl e, w') => (inl e, w')
           | (inr a, w') => k a w'
           end.
Definition raise {A} (e : exn) : M A := fun w => (inl e, w).

Notation "x <- m ;; k" := (bind m (fun x => k))
  (at level 61, m at next level, right associativity).
Notation "m ;; k" := (bind m (fun _ => k)) (at level 61, right associativity).

Definition get_world : M world := fun w => (inr w, w).
Definition put_world (w : world) : M unit := fun _ => (inr tt, w).

Definition emit (ev : event) : M unit :=
  fun w => (inr tt, set_trace (trace w ++ [ev]) w).

(** [try: body except ...:] with [handler e = None] when no clause matches. *)
Definition try_except {A} (body : M A) (handler : exn -> option (M A)) : M A :=
  fun w => match body w with
           | (inl e, w') => match handler e with
                            | Some h => h w'
                            | None => (inl e, w')
                            end
           | ok => ok
           end.

(** [try: body finally: fin]: an exception of [fin] replaces the body's outcome. *)
Definition try_finally {A} (body : M A) (fin : M unit) : M A :=
  fun w => match body w with
           | (r, w') => match fin w' with
                        | (inl e, w'') => (inl e, w'')
                        | (inr _, w'') => (r, w'')
                        end
           end.

Fixpoint for_each {A} (l : list A) (f : A -> M unit) : M unit :=
  match l with
  | [] => ret tt
  | x :: r => f x ;; for_each r f
  end.

Fixpoint map_m {A B} (f : A -> M B) (l : list A) : M (list B) :=
  match l with
  | [] => ret []
  | x :: r => y <- f x ;; ys <- map_m f r ;; ret (y :: ys)
  end.

Section Backend.

Variable X : externals.

(** A blocking completion request to the generative-model service. *)
Definition invoke_llm (c : llm_call) : M pystr :=
  emit (EvLLM c) ;;
  match llm X c with
  | inl e => raise e
  | inr s => ret s
  end.

(** ** [generate_markdown_from_data] *)

Definition MAX_CHARS : nat := 15000.

Definition markdown_system_prompt : pystr :=
  lit "You are an expert document analysis AI. Your task is to synthesize raw text elements and pre-extracted table data into a single, clean Markdown document." ++ nl
  ++ lit "1.  **Prioritize Table Data:** Data provided under 'PRE-EXTRACTED TABLES' is highly accurate. You MUST format this data using proper Markdown table syntax (`| Header | ... |`)." ++ nl
  ++ lit "2.  **Use Text for Context:** Use the 'Text Elements' to create surrounding paragraphs and headings. Do NOT repeat text that is already present in the tables." ++ nl
  ++ lit "3.  **Integrate Content:** Merge the tables and other text into a cohesive document." ++ nl
  ++ lit "4.  **Handle Images:** Represent any images using Markdown image syntax." ++ nl
  ++ lit "Your output must be ONLY the raw Markdown content.".

Definition fallback_heading : pystr := lit "# Page Content Too Large for Detailed Analysis".
Definition fallback_note : pystr :=
  lit "The following is a raw text dump of the page content. Formatting has been simplified to avoid exceeding AI processing limits.".

Definition generate_markdown_from_data (page_text_blocks : list text_span)
    (page_image_data : list image_asset) (page_tables : list table) : M pystr :=
  let formatted_data := format_data_for_llm page_text_blocks page_image_data page_tables in
  if Nat.ltb MAX_CHARS (List.length formatted_data) then
    let fallback_md :=
      [fallback_heading; fallback_note; nl ++ lit "---" ++ nl] ++ map text page_text_blocks in
    ret (join (nl ++ nl) fallback_md)
  else
    invoke_llm (mkCall markdown_system_prompt
                  (lit "Here is the data for the page:" ++ nl ++ nl ++ formatted_data)).


(** ** [generate_html_from_markdown] *)

Definition prev_link (current_page : nat) : pystr :=
  lit "<a href=" ++ dq ++ lit "page-" ++ py_str_nat (current_page - 1) ++ lit ".html" ++ dq
    ++ lit ">Previous</a>".

Definition next_link (current_page : nat) : pystr :=
  lit "<a href=" ++ dq ++ lit "page-" ++ py_str_nat (current_page + 1) ++ lit ".html" ++ dq
    ++ lit ">Next</a>".

Definition nav_links (current_page total_pages : nat) : list pystr :=
  (if Nat.ltb 1 current_page then [prev_link current_page] else [])
  ++ (if Nat.ltb current_page total_pages then [next_link current_page] else []).

Definition nav_html (current_page total_pages : nat) : pystr :=
  lit "<footer><nav>" ++ join (lit " | ") (nav_links current_page total_pages)
    ++ lit "</nav><p>Page " ++ py_str_nat current_page ++ lit " of " ++ py_str_nat total_pages
    ++ lit "</p></footer>".

Definition nav_instructions (current_page total_pages : nat) : pystr :=
  if Nat.ltb 1 total_pages then
    lit "At the end of the `<body>`, before the closing tag, you MUST include this exact navigation HTML: "
      ++ nav_html current_page total_pages
  else [].

Definition html_system_prompt (current_page total_pages : nat) : pystr :=
  nl ++ lit "You are an expert front-end developer. Your task is to convert the given content (in Markdown format) into a complete, production-ready HTML5 document based on the specified design requirements." ++ nl
  ++ nl ++ lit "DESIGN REQUIREMENTS:" ++ nl
  ++ lit "- Layout: Use a single-column, responsive flexbox layout." ++ nl
  ++ lit "- Color scheme: A modern, clean palette with dark grey text (#333), a white background (#FFF), and a subtle blue for links." ++ nl
  ++ lit "- Typography: Use a common sans-serif font like Arial or Helvetica with a base font size of 16px." ++ nl
  ++ lit "- Responsive: The layout must be mobile-first." ++ nl
  ++ nl ++ lit "OUTPUT FORMAT:" ++ nl
  ++ lit "- A complete HTML5 document." ++ nl
  ++ lit "- All CSS must be embedded in a single `<style>` tag in the `<head>`." ++ nl
  ++ lit "- Use a clean, semantic HTML structure (e.g., <main>, <article>, <h1>, <p>)." ++ nl
  ++ lit "- " ++ nav_instructions current_page total_pages ++ nl
  ++ lit "- Output ONLY the raw HTML code, starting with <!DOCTYPE html>." ++ nl.

Definition generate_html_from_markdown (markdown_content : pystr)
    (current_page total_pages : nat) : M pystr :=
  invoke_llm (mkCall (html_system_prompt current_page total_pages)
                (lit "CONTENT:" ++ nl ++ nl ++ markdown_content)).

(** ** [generate_html_for_page] (not called by the endpoint)

    [groq_api_key] is [groq_api_key.get_secret_value()] of the module;
    [new_llm] is the outcome of the [ChatGoogleGenerativeAI(...)]
    constructor. The function ends by calling [format_data_for_llm] with two
    arguments where three are required, which Python refuses with a
    [TypeError] before the prompt is sent. *)

Definition page_nav_instructions (current_page total_pages : nat) : pystr :=
  lit "The current page is " ++ py_str_nat current_page ++ lit " of " ++ py_str_nat total_pages
    ++ lit ". "
  ++ (if Nat.ltb 1 current_page then
        lit "Include a link to the previous page: '<a href=" ++ dq ++ lit "page-"
          ++ py_str_nat (current_page - 1) ++ lit ".html" ++ dq ++ lit ">Previous</a>'. "
      else [])
  ++ (if Nat.ltb current_page total_pages then
        lit "Include a link to the next page: '<a href=" ++ dq ++ lit "page-"
          ++ py_str_nat (current_page + 1) ++ lit ".html" ++ dq ++ lit ">Next</a>'. "
      else []).

Definition page_system_prompt (current_page total_pages : nat) : pystr :=
  lit "You are an expert web developer creating an HTML representation of a PDF page. "
  ++ lit "Create a single HTML file using CSS absolute positioning for text and images. "
  ++ lit "Image `src` attributes must point to the `images/` directory. "
  ++ lit "At the bottom of the `<body>`, you MUST add a navigation div. "
  ++ page_nav_instructions current_page total_pages
  ++ lit "The final output must be ONLY the raw HTML code, starting with <!DOCTYPE html>.".

Definition format_data_for_llm_arity_error : exn :=
  PyExc "TypeError"
    (lit "format_data_for_llm() missing 1 required positional argument: 'page_tables'").

Definition generate_html_for_page (groq_api_key : pystr) (new_llm : exn + unit)
    (page_text_blocks : list text_span) (page_image_data : list image_asset)
    (current_page total_pages : nat) : M pystr :=
  match groq_api_key with
  | [] => raise (PyExc "ValueError" (lit "GROQ_API_KEY environment variable not set."))
  | _ :: _ =>
      match new_llm with
      | inl e => raise e
      | inr _ =>
          let system_prompt := page_system_prompt current_page total_pages in
          (* [format_data_for_llm(page_text_blocks, page_image_data)] *)
          raise format_data_for_llm_arity_error
      end
  end.

(** ** [pdf_parser.py] *)

Definition ValueError (msg : string) : exn := PyExc "ValueError" (lit msg).

Definition modify_world (f : world -> world) : M unit := fun w => (inr tt, f w).

Definition pystr_eqb (a b : pystr) : bool :=
  if list_eq_dec N.eq_dec a b then true else false.

(** The contents of the file at [path], if it exists. *)
Definition read_file (path : pystr) : M (option (list byte)) :=
  w <- get_world ;;
  ret (option_map snd (find (fun f => pystr_eqb (fst f) path) (files w))).

(** [fitz.open(file_path)]: reads the file and allocates a fresh handle. *)
Definition fitz_open (file_path : pystr) : M fitz_doc :=
  emit (EvFitzOpen file_path) ;;
  contents <- read_file file_path ;;
  w <- get_world ;;
  match contents with
  | None => raise (PyExc "pymupdf.FileNotFoundError" (lit "no such file: '" ++ file_path ++ lit "'"))
  | Some contents =>
      match fitz_parse X contents with
      | inl e => raise e
      | inr data =>
          let d := mkDoc (next_doc w) file_path data in
          put_world (set_next_doc (S (next_doc w)) w) ;;
          ret d
      end
  end.

(** Every [fitz.Document] operation first refuses a closed document. *)
Definition ensure_open (doc : fitz_doc) : M unit :=
  w <- get_world ;;
  if existsb (Nat.eqb (doc_id doc)) (closed_docs w)
  then raise (ValueError "document closed") else ret tt.

Definition doc_close (doc : fitz_doc) : M unit :=
  ensure_open doc ;;
  emit (EvDocClose (doc_id doc)) ;;
  modify_world (fun w => set_closed_docs (doc_id doc :: closed_docs w) w).

Definition doc_is_encrypted (doc : fitz_doc) : M bool :=
  ensure_open doc ;; ret (is_encrypted (doc_data doc)).

Definition doc_authenticate (doc : fitz_doc) (password : pystr) : M bool :=
  ensure_open doc ;; ret (authenticate_ok (doc_data doc) password).

Definition doc_page_count (doc : fitz_doc) : M nat :=
  ensure_open doc ;; ret (pd_page_count (doc_data doc)).

(** [doc.load_page(n).get_text("dict")["blocks"]] *)
Definition doc_page_blocks (doc : fitz_doc) (n : nat) : M (list block) :=
  ensure_open doc ;;
  match nth_error (page_blocks (doc_data doc)) n with
  | Some bs => ret bs
  | None => raise (ValueError "page not in document")
  end.

Definition doc_get_page_images (doc : fitz_doc) (n : nat) : M (list Z) :=
  ensure_open doc ;;
  match nth_error (page_image_xrefs (doc_data doc)) n with
  | Some xs => ret xs
  | None => raise (ValueError "page not in document")
  end.

Definition doc_extract_image (doc : fitz_doc) (xref : Z) : M (list byte * pystr) :=
  ensure_open doc ;; ret (extract_image (doc_data doc) xref).

(** [open_pdf_from_path] *)
Definition open_pdf_from_path (file_path : pystr) (password : option pystr) : M fitz_doc :=
  try_except
    (doc <- fitz_open file_path ;;
     enc <- doc_is_encrypted doc ;;
     (if enc then
        ok <- doc_authenticate doc (match password with Some p => p | None => [] end) ;;
        (if ok then ret tt else doc_close doc)
      else ret tt) ;;
     ret doc)
    (fun e => Some (raise e)).

(** [extract_text_with_positions] *)

Record page_text := mkPageText {
  pt_page_number : nat;
  blocks : list text_span
}.

Definition span_of_raw (span : raw_span) : text_span :=
  mkSpan (rs_text span) (rs_bbox span) (rs_font span) (py_round (rs_size span)) (rs_color span).

Definition page_text_blocks_of (bs : list block) : list text_span :=
  List.concat (map (fun b => if Z.eqb (block_type b) 0
                        then List.concat (map (map span_of_raw) (block_lines b)) else [])
              bs).

Definition extract_text_with_positions (docs : fitz_doc) : M (list page_text) :=
  n <- doc_page_count docs ;;
  map_m (fun page_num =>
           bs <- doc_page_blocks docs page_num ;;
           ret (mkPageText page_num (page_text_blocks_of bs)))
        (seq 0 n).

(** [extract_tables_with_pdfplumber]: only pages with at least one table. *)
Fixpoint sparse_tables (page_num : nat) (per_page : list (list table)) : list page_tables_entry :=
  match per_page with
  | [] => []
  | [] :: r => sparse_tables (S page_num) r
  | ts :: r => mkPageTables page_num ts :: sparse_tables (S page_num) r
  end.

Definition extract_tables_with_pdfplumber (file_path : pystr) : M (list page_tables_entry) :=
  emit (EvPdfplumber file_path) ;;
  contents <- read_file file_path ;;
  match contents with
  | None => raise (PyExc "FileNotFoundError"
                      (lit "[Errno 2] No such file or directory: '" ++ file_path ++ lit "'"))
  | Some c =>
      match plumber_tables X c with
      | inl e => raise e
      | inr per_page => ret (sparse_tables 0 per_page)
      end
  end.

(** [_extract_images_with_fallback] *)
Definition extract_images_with_fallback (file_path : pystr) : M (list image_asset) :=
  try_except
    (emit (EvPdfimages file_path) ;;
     contents <- read_file file_path ;;
     match pdfimages_tool X contents with
     | inl e => raise e
     | inr written =>
         ret (map (fun f => mkImage (fst f) (snd f) 0) written)
     end)
    (fun e => if orb (isinstance e "CalledProcessError") (isinstance e "FileNotFoundError")
              then Some (ret []) else None).

(** [f"image_{page_num}_{xref}.{image_ext}"] *)
Definition image_name (page_num : nat) (xref : Z) (image_ext : pystr) : pystr :=
  lit "image_" ++ py_str_nat page_num ++ lit "_" ++ py_str_int xref ++ lit "." ++ image_ext.

(** [extract_images] *)
Definition extract_images (doc : fitz_doc) : M (list image_asset) :=
  n <- doc_page_count doc ;;
  per_page <-
    map_m (fun page_num =>
             xrefs <- doc_get_page_images doc page_num ;;
             map_m (fun xref =>
                      base_image <- doc_extract_image doc xref ;;
                      ret (mkImage (image_name page_num xref (snd base_image))
                                   (fst base_image) page_num))
                   xrefs)
          (seq 0 n) ;;
  let all_images := List.concat per_page in
  match all_images with
  | [] =>
      pc <- doc_page_count doc ;;
      if Nat.ltb 0 pc then extract_images_with_fallback (doc_name doc) else ret all_images
  | _ => ret all_images
  end.

(** ** [extract_metadata]

    [metadata] is the value of the [doc.metadata] attribute: [None] or a
    dictionary of strings. *)

Inductive pyval :=
| PyNone
| PyInt (n : nat)
| PyStr (s : pystr)
| PyBool (b : bool).

(** [d.get(k)] *)
Fixpoint dict_get (d : list (pystr * pystr)) (k : pystr) : pyval :=
  match d with
  | [] => PyNone
  | (k', v) :: r => if pystr_eqb k' k then PyStr v else dict_get r k
  end.

Definition extract_metadata (metadata : option (list (pystr * pystr))) (doc : fitz_doc)
    : M (list (pystr * pyval)) :=
  let metadata := match metadata with None => [] | Some m => m end in
  page_count <- doc_page_count doc ;;
  is_encrypted <- doc_is_encrypted doc ;;
  ret [(lit "page_count", PyInt page_count);
       (lit "format", dict_get metadata (lit "format"));
       (lit "title", dict_get metadata (lit "title"));
       (lit "author", dict_get metadata (lit "author"));
       (lit "subject", dict_get metadata (lit "subject"));
       (lit "producer", dict_get metadata (lit "producer"));
       (lit "creation_date", dict_get metadata (lit "creationDate"));
       (lit "modification_date", dict_get metadata (lit "modDate"));
       (lit "is_encrypted", PyBool is_encrypted)].

(** ** [main.py] *)

Inductive json :=
| JStr (s : pystr)
| JObj (fields : list (pystr * json)).

Inductive response :=
| JSONResponse (status_code : Z) (content : json)
| StreamingResponse (archive : list (pystr * zdata)) (download_filename : pystr).

(** The multipart [UploadFile]. *)
Record upload_file := mkUpload {
  content_type : pystr;
  upload_bytes : list byte;        (** what [await file.read()] returns *)
  filename : pystr
}.

Definition MAX_FILE_SIZE : N := 50 * 1024 * 1024.

Definition INTERNAL_ERROR : pystr := lit "An internal server error occurred.".

(** [zip_file.writestr(entry, data)]: appends an entry (a repeated name is
    written again, with only a warning). *)
Definition zip_writestr (entry : pystr) (data : zdata) : M unit :=
  emit (EvZipWrite entry data) ;;
  modify_world (fun w => set_zip_buffer (zip_buffer w ++ [(entry, data)]) w).

(** [next((t['tables'] for t in all_table_data if t['page_number'] == page_num), [])] *)
Fixpoint lookup_page_tables (all_table_data : list page_tables_entry) (page_num : nat) : list table :=
  match all_table_data with
  | [] => []
  | t :: r => if Nat.eqb (page_number t) page_num then tables t
              else lookup_page_tables r page_num
  end.

(** [[img for img in all_image_data if img['page'] == page_num]] *)
Definition page_image_data_of (all_image_data : list image_asset) (page_num : nat) : list image_asset :=
  filter (fun img => Nat.eqb (page img) page_num) all_image_data.

Definition page_file_name (current_page : nat) : pystr :=
  lit "page-" ++ py_str_nat current_page ++ lit ".html".

Definition style_css : pystr := lit "body { font-family: sans-serif; color: #333; margin: 2em; }".

(** One iteration of the page loop. *)
Definition process_page (total_pages : nat) (all_text_data : list page_text)
    (all_image_data : list image_asset) (all_table_data : list page_tables_entry)
    (page_num : nat) : M unit :=
  let current_page := (page_num + 1)%nat in
  match nth_error all_text_data page_num with
  | None => raise (PyExc "IndexError" (lit "list index out of range"))
  | Some pt =>
      let page_text_blocks := blocks pt in
      let page_image_data := page_image_data_of all_image_data page_num in
      let page_tables := lookup_page_tables all_table_data page_num in
      markdown_content <- generate_markdown_from_data page_text_blocks page_image_data page_tables ;;
      final_html <- generate_html_from_markdown markdown_content current_page total_pages ;;
      zip_writestr (page_file_name current_page) (ZStr final_html)
  end.

(** The [with zipfile.ZipFile(zip_buffer, 'w', ...)] block. *)
Definition write_archive (total_pages : nat) (all_text_data : list page_text)
    (all_image_data : list image_asset) (all_table_data : list page_tables_entry) : M unit :=
  modify_world (set_zip_buffer []) ;;
  for_each (seq 0 total_pages) (process_page total_pages all_text_data all_image_data all_table_data) ;;
  zip_writestr (lit "style.css") (ZStr style_css) ;;
  match all_image_data with
  | [] => ret tt
  | _ => for_each all_image_data
           (fun image => zip_writestr (lit "images/" ++ name image) (ZBytes (bytes image)))
  end.

Fixpoint last_index_of (c : N) (p : pystr) (i : nat) (acc : option nat) : option nat :=
  match p with
  | [] => acc
  | x :: r => last_index_of c r (S i) (if N.eqb x c then Some i else acc)
  end.

(** [os.path.splitext(p)[0]] (POSIX). *)
Definition splitext_root (p : pystr) : pystr :=
  let sep_index := last_index_of 47 p 0 None in
  match last_index_of 46 p 0 None with
  | None => p
  | Some dot_index =>
      let filename_index := match sep_index with None => 0 | Some k => S k end in
      if Nat.leb filename_index dot_index
         && existsb (fun c => negb (N.eqb c 46))
                    (firstn (dot_index - filename_index) (skipn filename_index p))
      then firstn dot_index p else p
  end%bool.

Definition download_filename_of (fname : pystr) : pystr :=
  lit "converted_" ++ splitext_root fname ++ lit ".zip".

(** The [finally:] clause. *)
Definition cleanup : M unit :=
  w <- get_world ;;
  (match frame_doc w with
   | None => ret tt
   | Some doc =>
       (* [if doc:] takes [len(doc)], i.e. [doc.page_count] *)
       n <- doc_page_count doc ;;
       if Nat.eqb n 0 then ret tt else doc_close doc
   end) ;;
  w <- get_world ;;
  let p := frame_temp w in
  ex <- read_file p ;;
  match p, ex with
  | _ :: _, Some _ =>
      emit (EvRemove p) ;;
      modify_world (fun w => set_files (filter (fun f => negb (pystr_eqb (fst f) p)) (files w)) w)
  | _, _ => ret tt
  end.

Definition convert_handler (e : exn) : option (M response) :=
  if isinstance e "PDFProcessingError" then Some (raise e)
  else if isinstance e "Exception" then Some (raise (HTTPException 500 INTERNAL_ERROR))
  else None.

(** [convert_pdf_to_html] *)
Definition convert_pdf_to_html (file : upload_file) : M response :=
  if negb (pystr_eqb (content_type file) (lit "application/pdf"))
  then raise (HTTPException 400 (lit "Invalid file type."))
  else
    emit EvReadBody ;;
    let pdf_bytes := upload_bytes file in
    if N.ltb MAX_FILE_SIZE (N.of_nat (List.length pdf_bytes))
    then raise (HTTPException 413 (lit "File size exceeds limit."))
    else
      modify_world (set_frame_temp []) ;;
      modify_world (set_frame_doc None) ;;
      try_finally
        (try_except
           (let temp_file_path := temp_path X in
            modify_world (fun w => set_files ((temp_file_path, pdf_bytes) :: files w) w) ;;
            modify_world (set_frame_temp temp_file_path) ;;
            doc <- open_pdf_from_path temp_file_path None ;;
            modify_world (set_frame_doc (Some doc)) ;;
            total_pages <- doc_page_count doc ;;
            all_text_data <- extract_text_with_positions doc ;;
            all_image_data <- extract_images doc ;;
            all_table_data <- extract_tables_with_pdfplumber temp_file_path ;;
            write_archive total_pages all_text_data all_image_data all_table_data ;;
            w <- get_world ;;
            ret (StreamingResponse (zip_buffer w) (download_filename_of (filename file))))
           convert_handler)
        cleanup.

(** [pdf_processing_exception_handler] *)
Definition pdf_processing_exception_handler (cls : string) (message : pystr) : response :=
  JSONResponse 400 (JObj [(lit "error", JObj [(lit "type", JStr (lit cls));
                                               (lit "message", JStr message)])]).

(** The application: [HTTPException] and [PDFProcessingError] are answered by
    their exception handlers, anything else escapes to
    [catch_exceptions_middleware]. *)
Definition app_handle (file : upload_file) : M response :=
  fun w =>
    match convert_pdf_to_html file w with
    | (inr r, w') => (inr r, w')
    | (inl e, w') =>
        let r :=
          match e with
          | HTTPException status detail => JSONResponse status (JObj [(lit "detail", JStr detail)])
          | PyExc cls message =>
              if isinstance e "PDFProcessingError"
              then pdf_processing_exception_handler cls message
              else JSONResponse 500 (JObj [(lit "message", JStr INTERNAL_ERROR)])
          end in
        (inr r, w')
    end.

End Backend.

(** * Vocabulary of the statements *)

(** [s] occurs in [t] as a contiguous piece. *)
Definition infix (s t : pystr) : Prop := exists pre post, t = pre ++ s ++ post.

Fixpoint prefixb (s t : pystr) : bool :=
  match s, t with
  | [], _ => true
  | x :: s', y :: t' => N.eqb x y && prefixb s' t'
  | _ :: _, [] => false
  end.

Fixpoint infixb (s t : pystr) : bool :=
  prefixb s t || match t with [] => false | _ :: t' => infixb s t' end.

Definition is_digit (c : N) : Prop := (48 <= c <= 57)%N.

Definition digits_value (l : pystr) : N := fold_left (fun acc c => acc * 10 + (c - 48))%N l 0%N.

(** Concrete inputs for the witnesses and counterexamples. *)

Definition w0 : world := mkWorld [] [] [] 0 [] [] None.

(** A model service that answers every request with the same text. *)
Definition const_llm (answer : pystr) : llm_call -> exn + pystr := fun _ => inr answer.

(** An unencrypted document; the data PyMuPDF reports for it is given. *)
Definition plain_pdf (n : nat) (bs : list (list block)) (xrefs : list (list Z)) : pdf_data :=
  mkPdfData false (fun _ => true) n bs xrefs (fun _ => ([Byte.x89], lit "png")).

Definition ex_externals (doc : exn + pdf_data) (tool : exn + list (pystr * list byte)) : externals :=
  mkExternals (const_llm (lit "# Page")) (fun _ => doc) (fun _ => inr []) (fun _ => tool)
    (lit "/tmp/tmpabc.pdf").

Definition ex_span (t : pystr) : text_span := mkSpan t [0; 0; 10; 10]%Q (lit "Helvetica") 12 0.

Definition ex_upload (bs : list byte) : upload_file :=
  mkUpload (lit "application/pdf") bs (lit "report.pdf").

(** The navigation anchor [<a href="page-{target}.html">{label}</a>]. *)
Definition anchor (target : nat) (label : string) : pystr :=
  lit "<a href=" ++ dq ++ lit "page-" ++ py_str_nat target ++ lit ".html" ++ dq
    ++ lit (">" ++ label ++ "</a>").

Definition nav_prefix : pystr :=
  lit "At the end of the `<body>`, before the closing tag, you MUST include this exact navigation HTML: ".

(** The entry names of a successful response's archive. *)
Definition archive_names (r : exn + response) : list pystr :=
  match r with
  | inr (StreamingResponse archive _) => map fst archive
  | _ => []
  end.

Definition detail_body (detail : pystr) : json := JObj [(lit "detail", JStr detail)].

(** An encrypted one-page document that accepts no password. *)
Definition locked_pdf : pdf_data :=
  mkPdfData true (fun _ => false) 1 [[]] [[]] (fun _ => ([Byte.x89], lit "png")).

(** A world in which the upload has been written to [path]. *)
Definition world_with_file (path : pystr) (contents : list byte) : world :=
  set_files [(path, contents)] w0.

(** The spans of a page's text blocks (type 0), in reading order. *)
Definition text_spans_of_blocks (bs : list block) : list raw_span :=
  List.concat (map (fun b => List.concat (block_lines b))
                   (filter (fun b => Z.eqb (block_type b) 0) bs)).

(** What the PyMuPDF loops of [extract_images] collect, page by page. *)
Definition primary_images (data : pdf_data) : list image_asset :=
  List.concat
    (map (fun page_num =>
            map (fun xref => mkImage (image_name page_num xref (snd (extract_image data xref)))
                                     (fst (extract_image data xref)) page_num)
                (nth page_num (page_image_xrefs data) []))
         (seq 0 (pd_page_count data))).

(** * Properties *)

(** ** Generic facts about the embedding *)

Lemma join_cons (sep x : pystr) (l : list pystr) :
  join sep (x :: l) = x ++ List.concat (map (fun y => sep ++ y) l).
Proof.
  revert x; induction l as [|y l IH]; intros x.
  - simpl. now rewrite app_nil_r.
  - change (join sep (x :: y :: l)) with (x ++ sep ++ join sep (y :: l)).
    rewrite IH. simpl. now rewrite !app_assoc.
Qed.

Lemma bind_inr {A B} (m : M A) (k : A -> M B) (w w' : world) (b : B) :
  bind m k w = (inr b, w') ->
  exists a w1, m w = (inr a, w1) /\ k a w1 = (inr b, w').
Proof.
  unfold bind. destruct (m w) as [[e|a] w1]; intros H; [discriminate|eauto].
Qed.


Lemma prefixb_app (s post : pystr) : prefixb s (s ++ post) = true.
Proof. induction s; simpl; [reflexivity|now rewrite N.eqb_refl, IHs]. Qed.

Lemma infixb_complete (s t : pystr) : infix s t -> infixb s t = true.
Proof.
  intros [pre [post ->]]. induction pre as [|x pre IH]; simpl.
  - destruct s; simpl; [destruct post; reflexivity|]. now rewrite N.eqb_refl, prefixb_app.
  - rewrite IH. destruct (prefixb s _); reflexivity.
Qed.

Lemma infix_refl (s : pystr) : infix s s.
Proof. exists [], []. now rewrite app_nil_r. Qed.

Lemma infix_trans (a b c : pystr) : infix a b -> infix b c -> infix a c.
Proof.
  intros [p1 [q1 ->]] [p2 [q2 ->]]. exists (p2 ++ p1), (q1 ++ q2).
  now rewrite !app_assoc.
Qed.

Lemma infix_char (a t : pystr) (c : N) : In c a -> ~ In c t -> ~ infix a t.
Proof.
  intros Ha Ht [pre [post ->]]. apply Ht. rewrite !in_app_iff. auto.
Qed.

Lemma infix_join (sep x : pystr) (l : list pystr) : In x l -> infix x (join sep l).
Proof.
  induction l as [|y l IH]; simpl; [contradiction|].
  intros [->|H].
  - destruct l; [apply infix_refl|]. exists [], (sep ++ join sep (p :: l)). reflexivity.
  - destruct l as [|z l]; [contradiction|].
    destruct (IH H) as [pre [post Hj]]. exists (y ++ sep ++ pre), post.
    rewrite Hj. now rewrite !app_assoc.
Qed.

Lemma join_app (sep : pystr) (l1 l2 : list pystr) :
  l1 <> [] -> l2 <> [] -> join sep (l1 ++ l2) = join sep l1 ++ sep ++ join sep l2.
Proof.
  intros H1 H2. induction l1 as [|x l1 IH]; [congruence|].
  destruct l1 as [|y l1].
  - simpl. destruct l2; [congruence|reflexivity].
  - change ((x :: y :: l1) ++ l2) with (x :: ((y :: l1) ++ l2)).
    change (join sep (x :: (y :: l1) ++ l2)) with (x ++ sep ++ join sep ((y :: l1) ++ l2)).
    rewrite IH by discriminate. simpl. now rewrite !app_assoc.
Qed.

(** ** Decimal rendering *)


Lemma dec_aux_spec (f : nat) (n : N) (acc : pystr) :
  (n < 10 ^ N.of_nat f)%N ->
  exists pre, dec_aux f n acc = pre ++ acc /\ Forall is_digit pre /\ digits_value pre = n.
Proof.
  revert n acc; induction f as [|f IH]; intros n acc Hn; cbn [dec_aux].
  - exists []. change (N.of_nat 0) with 0%N in Hn. rewrite N.pow_0_r in Hn.
    repeat split; [constructor|]. unfold digits_value. simpl. lia.
  - assert (Hm : (n mod 10 < 10)%N) by (apply N.mod_lt; lia).
    pose proof (N.div_mod n 10 ltac:(lia)) as E.
    destruct (N.eqb_spec (n / 10) 0) as [Hq|Hq].
    + exists [(48 + n mod 10)%N].
      set (r := (n mod 10)%N) in *. clearbody r.
      repeat split; [repeat constructor; unfold is_digit; lia|].
      unfold digits_value; cbn [fold_left]. rewrite Hq in E. lia.
    + assert (Hlt : (n / 10 < 10 ^ N.of_nat f)%N).
      { apply N.Div0.div_lt_upper_bound.
        rewrite Nat2N.inj_succ, N.pow_succ_r' in Hn. exact Hn. }
      destruct (IH (n / 10)%N ((48 + n mod 10)%N :: acc) Hlt) as [pre [E1 [E2 E3]]].
      exists (pre ++ [(48 + n mod 10)%N]). rewrite E1, <- app_assoc.
      set (r := (n mod 10)%N) in *. set (q := (n / 10)%N) in *. clearbody r q.
      repeat split.
      * apply Forall_app; split; auto. repeat constructor; unfold is_digit; lia.
      * unfold digits_value in *. rewrite fold_left_app, E3. cbn [fold_left]. lia.
Qed.

Lemma pos_lt_pow2_size (p : positive) : (Z.pos p < 2 ^ Z.of_nat (Pos.size_nat p))%Z.
Proof.
  induction p as [p IH|p IH|]; simpl Pos.size_nat;
    try (rewrite Nat2Z.inj_succ, Z.pow_succ_r by lia); try lia.
Qed.

Lemma dec_fuel (n : N) : (n < 10 ^ N.of_nat (S (N.size_nat n)))%N.
Proof.
  destruct n as [|p]; [simpl; lia|].
  assert (H1 := pos_lt_pow2_size p).
  assert (H2 : (2 ^ Z.of_nat (Pos.size_nat p) <= 10 ^ Z.of_nat (Pos.size_nat p))%Z)
    by (apply Z.pow_le_mono_l; lia).
  assert (H3 : (10 ^ Z.of_nat (Pos.size_nat p) <= 10 ^ Z.of_nat (S (Pos.size_nat p)))%Z)
    by (apply Z.pow_le_mono_r; lia).
  simpl N.size_nat. apply N2Z.inj_lt. rewrite N2Z.inj_pow, nat_N_Z. simpl. lia.
Qed.

Lemma dec_spec (n : N) : Forall is_digit (dec n) /\ digits_value (dec n) = n.
Proof.
  unfold dec. destruct (dec_aux_spec (S (N.size_nat n)) n [] (dec_fuel n)) as [pre [E1 [E2 E3]]].
  rewrite E1, app_nil_r. auto.
Qed.

Lemma py_str_nat_inj (a b : nat) : py_str_nat a = py_str_nat b -> a = b.
Proof.
  unfold py_str_nat. intros H.
  pose proof (proj2 (dec_spec (N.of_nat a))) as Ea.
  pose proof (proj2 (dec_spec (N.of_nat b))) as Eb.
  rewrite H in Ea. apply Nat2N.inj. congruence.
Qed.

Lemma py_str_nat_digits (n : nat) : Forall is_digit (py_str_nat n).
Proof. apply dec_spec. Qed.

(** ** The Markdown Synthesizer's size gate *)

(** C1: when the rendered description [format_data_for_llm] has at most
    15000 characters, [generate_markdown_from_data] makes exactly one model
    call (with that description) and returns the model's answer as it is;
    when it is longer, the world is left untouched (no model call) and the
    result is the fallback document: the heading verbatim, then the note,
    the rule, and the text of every span, in order, joined by blank lines. *)
Theorem generate_markdown_size_gate (X : externals) (bs : list text_span)
    (imgs : list image_asset) (ts : list table) (w : world) :
  let formatted_data := format_data_for_llm bs imgs ts in
  (List.length formatted_data <= MAX_CHARS ->
     let c := mkCall markdown_system_prompt
                (lit "Here is the data for the page:" ++ nl ++ nl ++ formatted_data) in
     generate_markdown_from_data X bs imgs ts w = (llm X c, set_trace (trace w ++ [EvLLM c]) w))
  /\ (MAX_CHARS < List.length formatted_data ->
      generate_markdown_from_data X bs imgs ts w =
        (inr (fallback_heading ++ nl ++ nl ++ fallback_note ++ nl ++ nl ++ (nl ++ lit "---" ++ nl)
              ++ List.concat (map (fun b => nl ++ nl ++ text b) bs)), w)).
Proof.
  intros formatted_data. unfold generate_markdown_from_data. fold formatted_data.
  split; intros H.
  - destruct (Nat.ltb_spec MAX_CHARS (List.length formatted_data)) as [H'|H']; [lia|].
    unfold invoke_llm, bind, emit. destruct (llm X _); reflexivity.
  - destruct (Nat.ltb_spec MAX_CHARS (List.length formatted_data)) as [H'|H']; [|lia].
    unfold ret. cbv beta. rewrite <- !app_comm_cons, app_nil_l, join_cons. cbn [map List.concat].
    rewrite map_map. now rewrite !app_assoc.
Qed.

Lemma generate_markdown_size_gate_witness :
  let X := ex_externals (inr (plain_pdf 1 [] [[]])) (inr []) in
  let small := [ex_span (lit "Quarterly report")] in
  let big := [ex_span (repeat 97%N 15000)] in
  ((List.length (format_data_for_llm small [] []) <= MAX_CHARS) /\
   generate_markdown_from_data X small [] [] w0 =
     (inr (lit "# Page"),
      set_trace [EvLLM (mkCall markdown_system_prompt
                  (lit "Here is the data for the page:" ++ nl ++ nl
                     ++ format_data_for_llm small [] []))] w0))
  /\ ((MAX_CHARS < List.length (format_data_for_llm big [] [])) /\
      generate_markdown_from_data X big [] [] w0 =
        (inr (fallback_heading ++ nl ++ nl ++ fallback_note ++ nl ++ nl ++ (nl ++ lit "---" ++ nl)
              ++ List.concat (map (fun b => nl ++ nl ++ text b) big)), w0)).
Proof.
  intros X small big. split; split.
  - vm_compute. lia.
  - apply (proj1 (generate_markdown_size_gate X small [] [] w0)). vm_compute. lia.
  - vm_compute. lia.
  - apply (proj2 (generate_markdown_size_gate X big [] [] w0)). vm_compute. lia.
Defined.

(** ** The HTML Synthesizer's navigation footer *)

Lemma infix_app_l (a b c : pystr) : infix a b -> infix a (b ++ c).
Proof. intros [pre [post ->]]. exists pre, (post ++ c). now rewrite !app_assoc. Qed.

Lemma infix_app_r (a b c : pystr) : infix a c -> infix a (b ++ c).
Proof. intros [pre [post ->]]. exists (b ++ pre), post. now rewrite !app_assoc. Qed.

Lemma not_in_app (c : N) (a b : pystr) : ~ In c a -> ~ In c b -> ~ In c (a ++ b).
Proof. rewrite in_app_iff. tauto. Qed.

Lemma not_in_of_existsb (c : N) (l : pystr) : existsb (N.eqb c) l = false -> ~ In c l.
Proof.
  intros H Hin. assert (existsb (N.eqb c) l = true) by (apply existsb_exists; exists c; auto using N.eqb_refl).
  congruence.
Qed.

Lemma in_of_existsb (c : N) (l : pystr) : existsb (N.eqb c) l = true -> In c l.
Proof. intros H. apply existsb_exists in H as [x [Hx E]]. apply N.eqb_eq in E. now subst. Qed.

Lemma not_in_digits (c : N) (n : nat) : (c < 48 \/ 57 < c)%N -> ~ In c (py_str_nat n).
Proof.
  intros Hc Hin. pose proof (py_str_nat_digits n) as D.
  rewrite Forall_forall in D. specialize (D c Hin). unfold is_digit in D. lia.
Qed.

Ltac find_infix :=
  first [ apply infix_refl
        | apply infix_app_l; find_infix
        | apply infix_app_r; find_infix ].

Ltac no_char :=
  repeat (apply not_in_app);
  first [ apply not_in_digits; lia | apply not_in_of_existsb; vm_compute; reflexivity ].

Lemma nav_links_first (N : nat) : 1 < N -> nav_links 1 N = [next_link 1].
Proof. intros H. unfold nav_links. now rewrite (proj2 (Nat.ltb_lt 1 N) H). Qed.

Lemma nav_links_last (N : nat) : 1 < N -> nav_links N N = [prev_link N].
Proof.
  intros H. unfold nav_links. rewrite (proj2 (Nat.ltb_lt 1 N) H), Nat.ltb_irrefl.
  reflexivity.
Qed.

Lemma nav_links_middle (p N : nat) : 1 < p -> p < N -> nav_links p N = [prev_link p; next_link p].
Proof.
  intros H1 H2. unfold nav_links.
  now rewrite (proj2 (Nat.ltb_lt 1 p) H1), (proj2 (Nat.ltb_lt p N) H2).
Qed.

(** C3: for a single page no navigation markup reaches the prompt (the
    instructions are empty and the system prompt contains no [<footer>]);
    for several pages the footer [nav_html] is included; on page 1 it has a
    Next link to [page-2.html] and no Previous link; on the last page a
    Previous link to [page-(N-1).html] and no Next link; in between both,
    to [page-(p-1).html] and [page-(p+1).html]. *)
Theorem nav_footer_construction (p N : nat) :
  (N = 1 -> nav_instructions p N = [] /\ ~ infix (lit "<footer>") (html_system_prompt p N))
  /\ (1 < N -> nav_instructions p N = nav_prefix ++ nav_html p N)
  /\ (p = 1 -> 1 < N ->
        infix (anchor 2 "Next") (nav_html p N) /\ ~ infix (lit "Previous") (nav_html p N))
  /\ (p = N -> 1 < N ->
        infix (anchor (N - 1) "Previous") (nav_html p N) /\ ~ infix (lit "Next") (nav_html p N))
  /\ (1 < p -> p < N ->
        infix (anchor (p - 1) "Previous") (nav_html p N)
        /\ infix (anchor (p + 1) "Next") (nav_html p N)).
Proof.
  repeat split; intros.
  - subst N. reflexivity.
  - subst N. intros Hin. apply infixb_complete in Hin. vm_compute in Hin. discriminate.
  - unfold nav_instructions. now rewrite (proj2 (Nat.ltb_lt 1 N) H).
  - subst p. unfold nav_html. rewrite nav_links_first by assumption.
    unfold join, next_link, anchor. find_infix.
  - subst p. apply (infix_char _ _ 117%N); [apply in_of_existsb; vm_compute; reflexivity|].
    unfold nav_html. rewrite nav_links_first by assumption. unfold join, next_link. no_char.
  - subst p. unfold nav_html. rewrite nav_links_last by assumption.
    unfold join, prev_link, anchor. find_infix.
  - subst p. apply (infix_char _ _ 120%N); [apply in_of_existsb; vm_compute; reflexivity|].
    unfold nav_html. rewrite nav_links_last by assumption. unfold join, prev_link. no_char.
  - unfold nav_html. rewrite nav_links_middle by assumption.
    unfold join, prev_link, anchor. find_infix.
  - unfold nav_html. rewrite nav_links_middle by assumption.
    unfold join, next_link, anchor. find_infix.
Qed.

Lemma nav_footer_construction_witness :
  (nav_instructions 1 1 = [] /\ ~ infix (lit "<footer>") (html_system_prompt 1 1))
  /\ (infix (anchor 2 "Next") (nav_html 1 3) /\ ~ infix (lit "Previous") (nav_html 1 3))
  /\ (infix (anchor 2 "Previous") (nav_html 3 3) /\ ~ infix (lit "Next") (nav_html 3 3))
  /\ (infix (anchor 1 "Previous") (nav_html 2 3) /\ infix (anchor 3 "Next") (nav_html 2 3)).
Proof.
  split; [|split; [|split]].
  - apply (proj1 (nav_footer_construction 1 1)). reflexivity.
  - apply (proj1 (proj2 (proj2 (nav_footer_construction 1 3)))); [reflexivity|lia].
  - apply (proj1 (proj2 (proj2 (proj2 (nav_footer_construction 3 3))))); [reflexivity|lia].
  - apply (proj2 (proj2 (proj2 (proj2 (nav_footer_construction 2 3))))); lia.
Defined.

(** ** The page join *)

Lemma lookup_sparse_tables (i k : nat) (per_page : list (list table)) :
  lookup_page_tables (sparse_tables i per_page) k =
  if Nat.ltb k i then [] else nth (k - i) per_page [].
Proof.
  revert i; induction per_page as [|ts r IH]; intros i; simpl.
  - destruct (Nat.ltb k i), (k - i); reflexivity.
  - destruct ts as [|t ts'].
    + rewrite IH. destruct (Nat.ltb_spec k (S i)), (Nat.ltb_spec k i); try lia.
      * reflexivity.
      * assert (k = i) by lia. subst. rewrite Nat.sub_diag. reflexivity.
      * replace (k - i) with (S (k - S i)) by lia. reflexivity.
    + simpl. rewrite IH. destruct (Nat.eqb_spec i k) as [->|Hne].
      * rewrite Nat.ltb_irrefl, Nat.sub_diag. reflexivity.
      * destruct (Nat.ltb_spec k (S i)), (Nat.ltb_spec k i); try lia; try reflexivity.
        replace (k - i) with (S (k - S i)) by lia. reflexivity.
Qed.

Lemma in_sparse_tables (i : nat) (per_page : list (list table)) (e : page_tables_entry) :
  In e (sparse_tables i per_page) ->
  i <= page_number e /\ tables e = nth (page_number e - i) per_page [] /\ tables e <> [].
Proof.
  revert i; induction per_page as [|ts r IH]; intros i; simpl; [contradiction|].
  destruct ts as [|t ts'].
  - intros H. destruct (IH (S i) H) as [H1 [H2 H3]]. repeat split; try lia; try assumption.
    rewrite H2. replace (page_number e - i) with (S (page_number e - S i)) by lia. reflexivity.
  - intros [<-|H]; simpl.
    + rewrite Nat.sub_diag. repeat split; [lia|discriminate].
    + destruct (IH (S i) H) as [H1 [H2 H3]]. repeat split; try lia; try assumption.
      rewrite H2. replace (page_number e - i) with (S (page_number e - S i)) by lia. reflexivity.
Qed.

Lemma sparse_tables_has_page (i k : nat) (per_page : list (list table)) :
  nth k per_page [] <> [] -> In (mkPageTables (i + k) (nth k per_page [])) (sparse_tables i per_page).
Proof.
  revert i k; induction per_page as [|ts r IH]; intros i k H; simpl in *.
  - destruct k; contradiction.
  - destruct k as [|k].
    + destruct ts; [contradiction|]. left. now rewrite Nat.add_0_r.
    + replace (i + S k) with (S i + k) by lia.
      destruct ts; [|right]; apply IH; assumption.
Qed.

(** C4: the join of the sparse table-extractor output is total and stable.
    For the per-page detections [per_page] (what [page.extract_tables()]
    returns on each page), the lookup of page [k] in the sparse result is
    the tables of page [k], so [[]] for a page absent from the result; a
    page present in the result yields exactly its entry's tables; the image
    list of page [k] is the global list filtered by [page = k]; a table
    detected only on page [k] is in page [k]'s bundle and in no other. *)
Theorem page_join_total_stable (per_page : list (list table)) (all_image_data : list image_asset) :
  let all_table_data := sparse_tables 0 per_page in
  (forall k, lookup_page_tables all_table_data k = nth k per_page [])
  /\ (forall k, (forall e, In e all_table_data -> page_number e <> k) ->
        lookup_page_tables all_table_data k = [])
  /\ (forall e, In e all_table_data -> lookup_page_tables all_table_data (page_number e) = tables e)
  /\ (forall k img, In img (page_image_data_of all_image_data k) <->
                    In img all_image_data /\ page img = k)
  /\ (forall k t, In t (nth k per_page []) ->
        (forall j, j <> k -> ~ In t (nth j per_page [])) ->
        In t (lookup_page_tables all_table_data k)
        /\ forall j, j <> k -> ~ In t (lookup_page_tables all_table_data j)).
Proof.
  intros all_table_data.
  assert (L : forall k, lookup_page_tables all_table_data k = nth k per_page []).
  { intros k. unfold all_table_data. rewrite lookup_sparse_tables. simpl.
    now rewrite Nat.sub_0_r. }
  split; [exact L|]. split; [|split; [|split]].
  - intros k Habs. rewrite L.
    destruct (nth k per_page []) as [|t ts] eqn:E; [reflexivity|].
    exfalso. apply (Habs (mkPageTables k (t :: ts))); [|reflexivity].
    rewrite <- E. apply (sparse_tables_has_page 0 k). rewrite E. discriminate.
  - intros e He. rewrite L. apply in_sparse_tables in He as [_ [He _]].
    now rewrite Nat.sub_0_r in He.
  - intros k img. unfold page_image_data_of. rewrite filter_In, Nat.eqb_eq. reflexivity.
  - intros k t Hk Hj. rewrite !L. split; [exact Hk|].
    intros j Hne. rewrite L. now apply Hj.
Qed.

Lemma page_join_total_stable_witness :
  let t : table := [[Some (lit "Total"); None]] in
  let per_page := [[]; []; []; [t]; []] in
  In t (lookup_page_tables (sparse_tables 0 per_page) 3)
  /\ forall j, j <> 3 -> ~ In t (lookup_page_tables (sparse_tables 0 per_page) j).
Proof.
  intros t per_page.
  apply (proj2 (proj2 (proj2 (proj2 (page_join_total_stable per_page []))))).
  - simpl. left. reflexivity.
  - intros j Hj. do 5 (destruct j as [|j]; [simpl; try lia; tauto|]). simpl.
    destruct j; simpl; tauto.
Defined.

(** ** Table cells in the model-facing description *)

Lemma row_str_split (l1 l2 : list cell) (c : cell) :
  l1 <> [] -> l2 <> [] ->
  row_str (l1 ++ c :: l2) = row_str l1 ++ lit " | " ++ py_str_cell c ++ lit " | " ++ row_str l2.
Proof.
  intros H1 H2. unfold row_str. rewrite map_app, join_app.
  - destruct l2 as [|c2 l2]; [congruence|]. reflexivity.
  - destruct l1; [congruence|discriminate].
  - discriminate.
Qed.

Lemma in_format_tables_from (i : nat) (ts : list table) (t : table) :
  In t ts -> In (table_str t) (format_tables_from i ts).
Proof.
  revert i; induction ts as [|t' ts IH]; intros i; simpl; [contradiction|].
  intros [->|H]; [right; left; reflexivity|right; right; now apply IH].
Qed.

(** C9: every row of every table of the page reaches the description as
    its cells rendered by [str] and joined by [" | "]: a [None] cell is the
    text ["None"] and an empty cell is an empty field between two pipes. *)
Theorem table_cells_rendered_by_str (bs : list text_span) (imgs : list image_asset)
    (ts : list table) (t : table) (row : list cell) :
  In t ts -> In row t ->
  infix (join (lit " | ")
               (map (fun c => match c with None => lit "None" | Some s => s end) row))
        (format_data_for_llm bs imgs ts)
  /\ (forall l1 l2, l1 <> [] -> l2 <> [] ->
        row_str (l1 ++ None :: l2) = row_str l1 ++ lit " | None | " ++ row_str l2
        /\ row_str (l1 ++ Some [] :: l2) = row_str l1 ++ lit " |  | " ++ row_str l2).
Proof.
  intros Ht Hrow. split.
  - apply (infix_trans _ (table_str t)).
    + apply infix_join. apply in_map_iff. exists row. split; [reflexivity|exact Hrow].
    + unfold format_data_for_llm. apply infix_join.
      destruct ts as [|t0 ts']; [contradiction|].
      rewrite !in_app_iff. right. right. right. right.
      apply in_format_tables_from. exact Ht.
  - intros l1 l2 H1 H2. rewrite !row_str_split by assumption. split; reflexivity.
Qed.

Lemma table_cells_rendered_by_str_witness :
  let row := [Some (lit "Item"); None; Some []; Some (lit "7")] in
  infix (lit "Item | None |  | 7")
        (format_data_for_llm [ex_span (lit "Prices")] [] [[row]]).
Proof.
  intros row.
  refine (proj1 (table_cells_rendered_by_str [ex_span (lit "Prices")] [] [[row]] [row] row _ _));
    simpl; left; reflexivity.
Defined.

(** ** The archive *)

(** A computation that only appends to the trace. *)
Definition trace_only {A} (m : M A) : Prop :=
  forall w r w', m w = (r, w') -> exists t, w' = set_trace t w.

Lemma invoke_llm_trace_only (X : externals) (c : llm_call) : trace_only (invoke_llm X c).
Proof.
  intros w r w' H. unfold invoke_llm, bind, emit in H.
  destruct (llm X c); inversion H; eauto.
Qed.

Lemma generate_markdown_trace_only (X : externals) bs imgs ts :
  trace_only (generate_markdown_from_data X bs imgs ts).
Proof.
  intros w r w' H. unfold generate_markdown_from_data in H.
  destruct (Nat.ltb _ _).
  - unfold ret in H. injection H as _ <-. exists (trace w). destruct w; reflexivity.
  - eapply invoke_llm_trace_only. exact H.
Qed.

Lemma generate_html_trace_only (X : externals) md p n :
  trace_only (generate_html_from_markdown X md p n).
Proof. intros w r w' H. eapply invoke_llm_trace_only. exact H. Qed.

Lemma zip_writestr_spec (entry : pystr) (data : zdata) (w : world) :
  exists w', zip_writestr entry data w = (inr tt, w')
             /\ zip_buffer w' = zip_buffer w ++ [(entry, data)].
Proof. eexists. split; reflexivity. Qed.

Lemma process_page_appends (X : externals) total texts imgs tables (k : nat) (w w' : world) :
  process_page X total texts imgs tables k w = (inr tt, w') ->
  exists d, zip_buffer w' = zip_buffer w ++ [(page_file_name (k + 1), d)].
Proof.
  unfold process_page. destruct (nth_error texts k) as [pt|]; [|discriminate].
  intros H. apply bind_inr in H as [md [w1 [H1 H]]]. apply bind_inr in H as [html [w2 [H2 H]]].
  destruct (generate_markdown_trace_only X _ _ _ _ _ _ H1) as [t1 ->].
  destruct (generate_html_trace_only X _ _ _ _ _ _ H2) as [t2 ->].
  unfold zip_writestr, bind, emit, modify_world in H. inversion H. subst. eexists. reflexivity.
Qed.

Lemma for_each_appends {A} (l : list A) (f : A -> M unit) (g : A -> pystr) :
  (forall x w w', f x w = (inr tt, w') -> exists d, zip_buffer w' = zip_buffer w ++ [(g x, d)]) ->
  forall w w', for_each l f w = (inr tt, w') ->
  map fst (zip_buffer w') = map fst (zip_buffer w) ++ map g l.
Proof.
  intros Hf. induction l as [|x l IH]; intros w w' H; simpl in *.
  - inversion H. now rewrite app_nil_r.
  - apply bind_inr in H as [[] [w1 [H1 H2]]].
    destruct (Hf x w w1 H1) as [d E]. rewrite (IH w1 w' H2), E, map_app, <- app_assoc.
    reflexivity.
Qed.

Lemma page_file_name_inj (a b : nat) : page_file_name a = page_file_name b -> a = b.
Proof.
  unfold page_file_name. intros H. apply app_inv_head in H. apply app_inv_tail in H.
  now apply py_str_nat_inj.
Qed.

Lemma NoDup_map_inj {A B} (f : A -> B) (l : list A) :
  (forall x y, f x = f y -> x = y) -> NoDup l -> NoDup (map f l).
Proof.
  intros Hf Hl. induction Hl as [|x l Hx Hl IH]; simpl; constructor; auto.
  intros Hin. apply in_map_iff in Hin as [y [E Hy]]. apply Hf in E. subst. contradiction.
Qed.

Definition image_entry (image : image_asset) : pystr := lit "images/" ++ name image.

Lemma archive_names_nodup (total : nat) (imgs : list image_asset) :
  NoDup (map page_file_name (seq 1 total) ++ [lit "style.css"] ++ map image_entry imgs)
  <-> NoDup (map name imgs).
Proof.
  assert (Hi : map image_entry imgs = map (app (lit "images/")) (map name imgs))
    by (unfold image_entry; now rewrite map_map).
  rewrite Hi. split.
  - intros H. apply NoDup_app_remove_l in H. apply NoDup_app_remove_l in H.
    exact (NoDup_map_inv _ _ H).
  - intros H. apply NoDup_app.
    + apply NoDup_map_inj; [exact page_file_name_inj | apply seq_NoDup].
    + simpl. constructor.
      * intros Hin. apply in_map_iff in Hin as [x [E _]]. discriminate.
      * apply NoDup_map_inj; [intros x y E; exact (app_inv_head (lit "images/") x y E) | exact H].
    + intros a Ha Hb. apply in_map_iff in Ha as [n [<- _]].
      destruct Hb as [E|Hb]; [discriminate|].
      apply in_map_iff in Hb as [x [E _]]. discriminate.
Qed.

(** A successful run of the archive block writes, in this order,
    [page-1.html] ... [page-N.html] for [N = total_pages], then [style.css], then one [images/<name>] entry per extracted image, in the
    order of the image list; the entry names are pairwise distinct exactly
    when the extracted image names are. *)
Theorem write_archive_entries (X : externals) (total_pages : nat) (all_text_data : list page_text)
    (all_image_data : list image_asset) (all_table_data : list page_tables_entry) (w w' : world) :
  write_archive X total_pages all_text_data all_image_data all_table_data w = (inr tt, w') ->
  map fst (zip_buffer w') =
    map page_file_name (seq 1 total_pages) ++ [lit "style.css"] ++ map image_entry all_image_data
  /\ (NoDup (map fst (zip_buffer w')) <-> NoDup (map name all_image_data)).
Proof.
  intros H.
  assert (E : map fst (zip_buffer w') =
    map page_file_name (seq 1 total_pages) ++ [lit "style.css"] ++ map image_entry all_image_data).
  { unfold write_archive in H.
    apply bind_inr in H as [[] [w1 [H1 H]]]. unfold modify_world in H1. inversion H1; subst w1.
    apply bind_inr in H as [[] [w2 [H2 H]]].
    apply bind_inr in H as [[] [w3 [H3 H]]].
    pose proof (for_each_appends _ _ (fun k => page_file_name (k + 1))
                  (process_page_appends X total_pages all_text_data all_image_data all_table_data)
                  _ _ H2) as E2.
    unfold zip_writestr, bind, emit, modify_world in H3. inversion H3; subst w3. clear H3.
    assert (Ep : map (fun k => page_file_name (k + 1)) (seq 0 total_pages)
                 = map page_file_name (seq 1 total_pages)).
    { rewrite <- seq_shift, map_map. apply map_ext. intros k. now rewrite Nat.add_1_r. }
    simpl in E2. rewrite Ep in E2.
    destruct all_image_data as [|img imgs].
    - inversion H; subst w'. simpl. rewrite map_app, E2. reflexivity.
    - assert (Hz : forall image v v',
                 zip_writestr (image_entry image) (ZBytes (bytes image)) v = (inr tt, v') ->
                 exists d, zip_buffer v' = zip_buffer v ++ [(image_entry image, d)]).
      { intros image v v' Hv. unfold zip_writestr, bind, emit, modify_world in Hv.
        injection Hv as <-. eexists. reflexivity. }
      pose proof (for_each_appends (img :: imgs)
                    (fun image => zip_writestr (image_entry image) (ZBytes (bytes image)))
                    image_entry Hz _ _ H) as E4.
      rewrite E4. simpl. rewrite map_app, E2, <- app_assoc. reflexivity. }
  split; [exact E|]. rewrite E. apply archive_names_nodup.
Qed.

Lemma write_archive_entries_witness :
  let X := ex_externals (inr (plain_pdf 2 [[]; []] [[]; []])) (inr []) in
  let texts := [mkPageText 0 [ex_span (lit "Intro")]; mkPageText 1 []] in
  let imgs := [mkImage (lit "image_0_7.jpeg") [Byte.xff] 0] in
  write_archive X 2 texts imgs [] w0 = (inr tt, snd (write_archive X 2 texts imgs [] w0))
  /\ map fst (zip_buffer (snd (write_archive X 2 texts imgs [] w0))) =
       map page_file_name (seq 1 2) ++ [lit "style.css"] ++ map image_entry imgs
  /\ (NoDup (map fst (zip_buffer (snd (write_archive X 2 texts imgs [] w0))))
      <-> NoDup (map name imgs)).
Proof.
  intros X texts imgs.
  assert (H : write_archive X 2 texts imgs [] w0 = (inr tt, snd (write_archive X 2 texts imgs [] w0)))
    by (vm_compute; reflexivity).
  split; [exact H|]. exact (write_archive_entries X 2 texts imgs [] w0 _ H).
Defined.

Lemma not_nodup_dup {A} (l1 l2 l3 : list A) (x : A) : ~ NoDup (l1 ++ x :: l2 ++ x :: l3).
Proof.
  intros H. apply NoDup_app_remove_l in H. inversion H as [|y l Hx Hl]; subst.
  apply Hx. rewrite in_app_iff. right. left. reflexivity.
Qed.

(** C2, at a failing input: a one-page PDF whose page 0 reports the image
    with xref 5 twice gets two [images/image_0_5.png] entries in its archive,
    so the archive's entry names are not unique. *)
Lemma archive_duplicate_image_entry :
  let X := ex_externals (inr (plain_pdf 1 [[]] [[5%Z; 5%Z]])) (inr []) in
  archive_names (fst (app_handle X (ex_upload [Byte.x25]) w0)) =
    [lit "page-1.html"; lit "style.css"; lit "images/image_0_5.png"; lit "images/image_0_5.png"]
  /\ ~ NoDup (archive_names (fst (app_handle X (ex_upload [Byte.x25]) w0))).
Proof.
  intros X.
  assert (E : archive_names (fst (app_handle X (ex_upload [Byte.x25]) w0)) =
    [lit "page-1.html"; lit "style.css"; lit "images/image_0_5.png"; lit "images/image_0_5.png"])
    by (vm_compute; reflexivity).
  split; [exact E|]. rewrite E.
  exact (not_nodup_dup [lit "page-1.html"; lit "style.css"] [] [] (lit "images/image_0_5.png")).
Qed.

(** ** Upload validation *)

(** C8: a request whose content type is not [application/pdf] is answered
    400 with the world untouched (the body is not read); a PDF request whose
    body exceeds 50 MiB is answered 413 after the body is read and before
    anything else happens (no parse, no file written). *)
Theorem upload_validation_order (X : externals) (file : upload_file) (w : world) :
  (content_type file <> lit "application/pdf" ->
     app_handle X file w = (inr (JSONResponse 400 (detail_body (lit "Invalid file type."))), w))
  /\ (content_type file = lit "application/pdf" ->
      (MAX_FILE_SIZE < N.of_nat (List.length (upload_bytes file)))%N ->
      app_handle X file w =
        (inr (JSONResponse 413 (detail_body (lit "File size exceeds limit."))),
         set_trace (trace w ++ [EvReadBody]) w)).
Proof.
  split.
  - intros H. unfold app_handle, convert_pdf_to_html, pystr_eqb.
    destruct (list_eq_dec N.eq_dec (content_type file) (lit "application/pdf")); [contradiction|].
    reflexivity.
  - intros H Hs. unfold app_handle, convert_pdf_to_html, pystr_eqb.
    destruct (list_eq_dec N.eq_dec (content_type file) (lit "application/pdf")); [|contradiction].
    cbn [negb]. unfold bind at 1, emit.
    destruct (N.ltb_spec MAX_FILE_SIZE (N.of_nat (List.length (upload_bytes file)))); [|lia].
    reflexivity.
Qed.

Lemma upload_validation_order_witness :
  let X := ex_externals (inr (plain_pdf 1 [[]] [[]])) (inr []) in
  let big := mkUpload (lit "application/pdf") (repeat Byte.x00 (N.to_nat 52428801)) (lit "big.pdf") in
  (app_handle X (mkUpload (lit "text/plain") [Byte.x25] (lit "notes.txt")) w0 =
     (inr (JSONResponse 400 (detail_body (lit "Invalid file type."))), w0))
  /\ (app_handle X big w0 =
        (inr (JSONResponse 413 (detail_body (lit "File size exceeds limit."))),
         set_trace (trace w0 ++ [EvReadBody]) w0)).
Proof.
  intros X big. split.
  - apply (proj1 (upload_validation_order X _ w0)). vm_compute. discriminate.
  - apply (proj2 (upload_validation_order X big w0)).
    + reflexivity.
    + subst big. cbn [upload_bytes]. rewrite repeat_length, N2Nat.id. reflexivity.
Defined.

(** ** Documents closed by [open_pdf_from_path] *)

Lemma existsb_eqb_in (x : nat) (l : list nat) : existsb (Nat.eqb x) l = true <-> In x l.
Proof.
  rewrite existsb_exists. split.
  - intros [y [Hy E]]. apply Nat.eqb_eq in E. subst. exact Hy.
  - intros H. exists x. split; [exact H | apply Nat.eqb_refl].
Qed.

Lemma bind_step {A B} (m : M A) (k : A -> M B) (w w1 : world) (a : A) :
  m w = (inr a, w1) -> bind m k w = k a w1.
Proof. intros H. unfold bind. rewrite H. reflexivity. Qed.

Lemma ensure_open_closed (d : fitz_doc) (v : world) :
  In (doc_id d) (closed_docs v) -> ensure_open d v = (inl (ValueError "document closed"), v).
Proof.
  intros H. unfold ensure_open, bind, get_world.
  apply existsb_eqb_in in H. rewrite H. reflexivity.
Qed.

Lemma ensure_open_open (d : fitz_doc) (v : world) :
  ~ In (doc_id d) (closed_docs v) -> ensure_open d v = (inr tt, v).
Proof.
  intros H. unfold ensure_open, bind, get_world.
  destruct (existsb (Nat.eqb (doc_id d)) (closed_docs v)) eqn:E.
  - apply existsb_eqb_in in E. contradiction.
  - reflexivity.
Qed.

(** C10: when the document is encrypted and authentication with the supplied
    (or empty) password fails, [open_pdf_from_path] closes the fresh handle
    and returns it; from then on, in every world where it is closed (the
    model never reopens a handle), [page_count], [load_page] and
    [extract_images] on it raise [ValueError("document closed")]. *)
Theorem open_pdf_returns_closed_handle (X : externals) (path : pystr)
    (password : option pystr) (contents : list byte) (data : pdf_data) (w : world) :
  option_map snd (find (fun f => pystr_eqb (fst f) path) (files w)) = Some contents ->
  fitz_parse X contents = inr data ->
  is_encrypted data = true ->
  authenticate_ok data (match password with Some p => p | None => [] end) = false ->
  ~ In (next_doc w) (closed_docs w) ->
  exists w',
    open_pdf_from_path X path password w = (inr (mkDoc (next_doc w) path data), w')
    /\ In (next_doc w) (closed_docs w')
    /\ (forall v, In (next_doc w) (closed_docs v) ->
          doc_page_count (mkDoc (next_doc w) path data) v = (inl (ValueError "document closed"), v)
          /\ (forall n, doc_page_blocks (mkDoc (next_doc w) path data) n v =
                          (inl (ValueError "document closed"), v))
          /\ extract_images X (mkDoc (next_doc w) path data) v = (inl (ValueError "document closed"), v)).
Proof.
  intros Hf Hp He Ha Hfresh.
  set (d := mkDoc (next_doc w) path data).
  set (w1 := set_next_doc (S (next_doc w)) (set_trace (trace w ++ [EvFitzOpen path]) w)).
  assert (Hopen : fitz_open X path w = (inr d, w1)).
  { cbv beta iota delta [fitz_open bind emit read_file get_world ret put_world].
    cbn [files set_trace]. rewrite Hf, Hp. reflexivity. }
  assert (Hw1 : ~ In (doc_id d) (closed_docs w1)) by exact Hfresh.
  exists (set_closed_docs (next_doc w :: closed_docs w1)
            (set_trace (trace w1 ++ [EvDocClose (next_doc w)]) w1)).
  split; [|split].
  - set (pw := match password with Some p => p | None => [] end) in *.
    assert (Henc : doc_is_encrypted d w1 = (inr true, w1)).
    { unfold doc_is_encrypted. rewrite (bind_step _ _ _ _ _ (ensure_open_open d w1 Hw1)).
      unfold ret. cbn [doc_data d]. rewrite He. reflexivity. }
    assert (Hauth : (ok <- doc_authenticate d pw ;; if ok then ret tt else doc_close d) w1 =
              (inr tt, set_closed_docs (next_doc w :: closed_docs w1)
                         (set_trace (trace w1 ++ [EvDocClose (next_doc w)]) w1))).
    { assert (Ha' : doc_authenticate d pw w1 = (inr false, w1)).
      { unfold doc_authenticate. rewrite (bind_step _ _ _ _ _ (ensure_open_open d w1 Hw1)).
        unfold ret. cbn [doc_data d]. rewrite Ha. reflexivity. }
      rewrite (bind_step _ _ _ _ _ Ha'). cbv beta iota.
      unfold doc_close. rewrite (bind_step _ _ _ _ _ (ensure_open_open d w1 Hw1)).
      reflexivity. }
    unfold open_pdf_from_path, try_except.
    rewrite (bind_step _ _ _ _ _ Hopen). cbv beta.
    rewrite (bind_step _ _ _ _ _ Henc). cbv beta iota.
    rewrite (bind_step _ _ _ _ _ Hauth). reflexivity.
  - left. reflexivity.
  - intros v Hv. change (next_doc w) with (doc_id d) in Hv.
    pose proof (ensure_open_closed d v Hv) as Hc.
    split; [|split].
    + unfold doc_page_count, bind. rewrite Hc. reflexivity.
    + intros n. unfold doc_page_blocks, bind. rewrite Hc. reflexivity.
    + unfold extract_images, doc_page_count, bind at 1, bind at 1. rewrite Hc. reflexivity.
Qed.

Lemma open_pdf_returns_closed_handle_witness :
  let X := ex_externals (inr locked_pdf) (inr []) in
  let w := world_with_file (lit "/tmp/locked.pdf") [Byte.x25] in
  exists w',
    open_pdf_from_path X (lit "/tmp/locked.pdf") None w =
      (inr (mkDoc (next_doc w) (lit "/tmp/locked.pdf") locked_pdf), w')
    /\ In (next_doc w) (closed_docs w')
    /\ (forall v, In (next_doc w) (closed_docs v) ->
          doc_page_count (mkDoc (next_doc w) (lit "/tmp/locked.pdf") locked_pdf) v =
            (inl (ValueError "document closed"), v)
          /\ (forall n, doc_page_blocks (mkDoc (next_doc w) (lit "/tmp/locked.pdf") locked_pdf) n v =
                          (inl (ValueError "document closed"), v))
          /\ extract_images X (mkDoc (next_doc w) (lit "/tmp/locked.pdf") locked_pdf) v =
               (inl (ValueError "document closed"), v)).
Proof.
  intros X w.
  apply (open_pdf_returns_closed_handle X (lit "/tmp/locked.pdf") None [Byte.x25] locked_pdf w).
  - vm_compute. reflexivity.
  - reflexivity.
  - reflexivity.
  - reflexivity.
  - simpl. intros [].
Defined.

(** ** Behaviour at the failing inputs *)

(** C7, at a failing input: an encrypted document opened without a password
    is returned as a handle (already closed), no
    [PasswordProtectedPDFError] is raised, and the endpoint answers the
    upload with the middleware's opaque 500 (the [finally] clause's
    [if doc:] fails on the closed handle) instead of a 400. *)
Theorem encrypted_open_returns_handle :
  let X := ex_externals (inr locked_pdf) (inr []) in
  fst (open_pdf_from_path X (lit "/tmp/locked.pdf") None
         (world_with_file (lit "/tmp/locked.pdf") [Byte.x25]))
    = inr (mkDoc 0 (lit "/tmp/locked.pdf") locked_pdf)
  /\ fst (app_handle X (ex_upload [Byte.x25]) w0)
    = inr (JSONResponse 500 (JObj [(lit "message", JStr INTERNAL_ERROR)])).
Proof. split; vm_compute; reflexivity. Qed.

(** C6, at a failing input: when PyMuPDF cannot parse the upload (it raises
    its own [FileDataError], which [open_pdf_from_path] re-raises unchanged),
    the endpoint answers 500 with the generic detail, not 400 with an
    [{error: {type, message}}] body. *)
Theorem unparseable_upload_answered_500 :
  let X := ex_externals (inl (PyExc "FileDataError" (lit "Failed to open file"))) (inr []) in
  fst (app_handle X (ex_upload [Byte.x25]) w0)
    = inr (JSONResponse 500 (detail_body INTERNAL_ERROR)).
Proof. vm_compute. reflexivity. Qed.

(** C5, at a failing input: for a one-page document without embedded images
    whose [pdfimages] run times out, [extract_images] raises
    [TimeoutExpired] (the fallback catches only [CalledProcessError] and
    [FileNotFoundError]), and the endpoint answers 500. *)
Theorem fallback_timeout_propagates :
  let X := ex_externals (inr (plain_pdf 1 [[]] [[]]))
             (inl (PyExc "TimeoutExpired" (lit "pdfimages timed out after 30 seconds"))) in
  fst (extract_images X (mkDoc 0 (lit "/tmp/tmpabc.pdf") (plain_pdf 1 [[]] [[]]))
         (world_with_file (lit "/tmp/tmpabc.pdf") [Byte.x25]))
    = inl (PyExc "TimeoutExpired" (lit "pdfimages timed out after 30 seconds"))
  /\ fst (app_handle X (ex_upload [Byte.x25]) w0)
    = inr (JSONResponse 500 (detail_body INTERNAL_ERROR)).
Proof. split; vm_compute; reflexivity. Qed.

(** ** The [finally:] clause and the other functions of [pdf_parser.py] and [html_generator.py] *)

Lemma find_none_not_in (fs : list (pystr * list byte)) (p : pystr) :
  find (fun f => pystr_eqb (fst f) p) fs = None -> forall c, ~ In (p, c) fs.
Proof.
  intros H c Hin. apply (find_none _ _ H) in Hin. simpl in Hin.
  unfold pystr_eqb in Hin. destruct (list_eq_dec N.eq_dec p p); [discriminate | contradiction].
Qed.

Lemma not_in_filter_key (fs : list (pystr * list byte)) (p : pystr) :
  forall c, ~ In (p, c) (filter (fun f => negb (pystr_eqb (fst f) p)) fs).
Proof.
  intros c Hin. apply filter_In in Hin as [_ H]. simpl in H.
  unfold pystr_eqb in H. destruct (list_eq_dec N.eq_dec p p); [discriminate | contradiction].
Qed.

(** The [finally:] clause of [convert_pdf_to_html]: when the frame's
    document is already closed, [len(doc)] raises and nothing else happens;
    when it completes, the temporary file is gone from the file system, a
    document with pages has been closed and an empty one left as it was; and
    it always completes when the frame's document is open. *)
Theorem cleanup_behaviour (w : world) :
  (forall d, frame_doc w = Some d -> In (doc_id d) (closed_docs w) ->
     cleanup w = (inl (ValueError "document closed"), w))
  /\ (forall w', cleanup w = (inr tt, w') ->
       (frame_temp w <> [] -> forall c, ~ In (frame_temp w, c) (files w'))
       /\ (forall d, frame_doc w = Some d -> pd_page_count (doc_data d) <> 0 ->
             In (doc_id d) (closed_docs w'))
       /\ (forall d, frame_doc w = Some d -> pd_page_count (doc_data d) = 0 ->
             closed_docs w' = closed_docs w))
  /\ ((forall d, frame_doc w = Some d -> ~ In (doc_id d) (closed_docs w)) ->
      exists w', cleanup w = (inr tt, w')).
Proof.
  cbv [cleanup bind get_world ret raise read_file emit modify_world doc_page_count doc_close ensure_open].
  destruct (frame_doc w) as [d|] eqn:Hd.
  - destruct (existsb (Nat.eqb (doc_id d)) (closed_docs w)) eqn:Hc.
    + apply existsb_eqb_in in Hc. split; [|split].
      * intros d0 E _. injection E as <-. reflexivity.
      * intros w' E. discriminate.
      * intros Ho. exfalso. exact (Ho d eq_refl Hc).
    + assert (Ho : ~ In (doc_id d) (closed_docs w)) by (intros Hi; apply existsb_eqb_in in Hi; congruence).
      destruct (Nat.eqb (pd_page_count (doc_data d)) 0) eqn:Hn;
        cbv beta iota zeta; cbn [closed_docs frame_temp files set_trace set_closed_docs set_files];
        try rewrite Hc; cbv beta iota zeta;
        cbn [closed_docs frame_temp files set_trace set_closed_docs set_files];
        (destruct (frame_temp w) as [|c0 rest] eqn:Ht;
         [|destruct (find (fun f => pystr_eqb (fst f) (c0 :: rest)) (files w)) eqn:Hf]);
        cbn [option_map];
        (split; [intros d0 E Hi; injection E as <-; contradiction|]);
        (split; [|intros _; eexists; reflexivity]);
        intros w' E; injection E as <-; cbn [files closed_docs set_files set_trace set_closed_docs];
        try rewrite Ht; (split; [|split]);
        try (intros d0 E Hp; injection E as <-; apply Nat.eqb_eq in Hn; contradiction);
        try (intros d0 E Hp; injection E as <-; apply Nat.eqb_neq in Hn; contradiction);
        try (intros d0 E Hp; injection E as <-; first [left; reflexivity | reflexivity]);
        try (intros Hne; contradiction);
        try (intros _; apply not_in_filter_key);
        try (intros _; apply find_none_not_in; exact Hf).
  - destruct (frame_temp w) as [|c0 rest] eqn:Ht;
      [|destruct (find (fun f => pystr_eqb (fst f) (c0 :: rest)) (files w)) eqn:Hf];
      cbn [option_map];
      (split; [intros d0 E; discriminate|]);
      (split; [|intros _; eexists; reflexivity]);
      intros w' E; injection E as <-; cbn [files closed_docs set_files set_trace];
      (split; [|split]); try (intros d0 E; discriminate);
      try (intros Hne; contradiction);
      try (intros _; apply not_in_filter_key);
      try (intros _; apply find_none_not_in; exact Hf).
Qed.

(** [open_pdf_from_path] on a readable, parseable file that is unencrypted
    or accepts the password returns an open handle with the next document
    id, and records only the [fitz.open] call. *)
Theorem open_pdf_open_handle (X : externals) (path : pystr) (password : option pystr)
    (contents : list byte) (data : pdf_data) (w : world) :
  option_map snd (find (fun f => pystr_eqb (fst f) path) (files w)) = Some contents ->
  fitz_parse X contents = inr data ->
  ~ In (next_doc w) (closed_docs w) ->
  (is_encrypted data = false
   \/ authenticate_ok data (match password with Some p => p | None => [] end) = true) ->
  open_pdf_from_path X path password w =
    (inr (mkDoc (next_doc w) path data),
     set_next_doc (S (next_doc w)) (set_trace (trace w ++ [EvFitzOpen path]) w)).
Proof.
  intros Hf Hp Hfresh Hok.
  set (d := mkDoc (next_doc w) path data).
  set (w1 := set_next_doc (S (next_doc w)) (set_trace (trace w ++ [EvFitzOpen path]) w)).
  assert (Hopen : fitz_open X path w = (inr d, w1)).
  { cbv beta iota delta [fitz_open bind emit read_file get_world ret put_world].
    cbn [files set_trace]. rewrite Hf, Hp. reflexivity. }
  assert (Hw1 : ~ In (doc_id d) (closed_docs w1)) by exact Hfresh.
  assert (Henc : doc_is_encrypted d w1 = (inr (is_encrypted data), w1)).
  { unfold doc_is_encrypted. rewrite (bind_step _ _ _ _ _ (ensure_open_open d w1 Hw1)). reflexivity. }
  unfold open_pdf_from_path, try_except.
  rewrite (bind_step _ _ _ _ _ Hopen). cbv beta.
  rewrite (bind_step _ _ _ _ _ Henc). cbv beta iota.
  destruct (is_encrypted data) eqn:He.
  - destruct Hok as [Hok|Hok]; [discriminate|].
    assert (Ha : doc_authenticate d (match password with Some p => p | None => [] end) w1 =
                 (inr true, w1)).
    { unfold doc_authenticate. rewrite (bind_step _ _ _ _ _ (ensure_open_open d w1 Hw1)).
      cbn [doc_data d]. rewrite Hok. reflexivity. }
    rewrite (bind_step _ _ _ _ _ (bind_step _ _ _ _ _ Ha)). reflexivity.
  - reflexivity.
Qed.

(** Python's [round] on the span sizes and bbox coordinates lands within
    one half of its argument, and picks the even neighbour on a tie. *)
Theorem py_round_half_even (q : Q) :
  (inject_Z (py_round q) - (1#2) <= q /\ q <= inject_Z (py_round q) + (1#2))%Q
  /\ ((q == inject_Z (py_round q) + (1#2) \/ q == inject_Z (py_round q) - (1#2))%Q ->
      Z.even (py_round q) = true).
Proof.
  unfold py_round. cbv zeta.
  pose proof (Qfloor_le q) as H1. pose proof (Qlt_floor q) as H2.
  set (f := Qfloor q) in *.
  rewrite inject_Z_plus in H2. replace (inject_Z 1) with 1%Q in H2 by reflexivity.
  destruct (Qcompare_spec (q - inject_Z f) (1#2)) as [E|L|G].
  - destruct (Z.even f) eqn:Ev.
    + split; [lra|]. intros _. exact Ev.
    + rewrite inject_Z_plus. replace (inject_Z 1) with 1%Q by reflexivity.
      split; [lra|]. intros _. rewrite Z.even_add, Ev. reflexivity.
  - split; [lra|]. intros [H|H]; exfalso; lra.
  - rewrite inject_Z_plus. replace (inject_Z 1) with 1%Q by reflexivity.
    split; [lra|]. intros [H|H]; exfalso; lra.
Qed.

Lemma map_m_pure {A B} (f : A -> M B) (g : A -> B) (l : list A) (w : world) :
  (forall x, In x l -> f x w = (inr (g x), w)) -> map_m f l w = (inr (map g l), w).
Proof.
  induction l as [|x l IH]; intros H; cbn [map_m map]; [reflexivity|].
  rewrite (bind_step _ _ _ _ _ (H x (or_introl eq_refl))).
  rewrite (bind_step _ _ _ _ _ (IH (fun y Hy => H y (or_intror Hy)))). reflexivity.
Qed.

Lemma page_text_blocks_of_spans (bs : list block) :
  page_text_blocks_of bs = map span_of_raw (text_spans_of_blocks bs).
Proof.
  unfold page_text_blocks_of, text_spans_of_blocks.
  induction bs as [|b bs IH]; [reflexivity|].
  cbn [map filter List.concat]. destruct (Z.eqb (block_type b) 0); cbn [map List.concat].
  - rewrite IH, map_app. f_equal. symmetry. apply concat_map.
  - exact IH.
Qed.

Lemma nth_error_map_seq {B} (g : nat -> B) (n i : nat) (y : B) :
  nth_error (map g (seq 0 n)) i = Some y -> i < n /\ y = g i.
Proof.
  intros H. rewrite nth_error_map in H.
  destruct (nth_error (seq 0 n) i) as [k|] eqn:E; [|discriminate].
  injection H as <-.
  assert (Hi : i < n).
  { rewrite <- (length_seq n 0). apply nth_error_Some. rewrite E. discriminate. }
  apply nth_error_nth with (d := 0) in E. rewrite seq_nth in E by exact Hi.
  split; [exact Hi | now subst].
Qed.

(** On an open document, [extract_text_with_positions] returns one entry per
    page, numbered by its index, whose blocks are the spans of the page's
    text blocks (type 0) in order, and leaves the world unchanged. *)
Theorem extract_text_one_entry_per_page (d : fitz_doc) (w : world) :
  ~ In (doc_id d) (closed_docs w) ->
  pd_page_count (doc_data d) <= List.length (page_blocks (doc_data d)) ->
  exists all_pages_text,
    extract_text_with_positions d w = (inr all_pages_text, w)
    /\ List.length all_pages_text = pd_page_count (doc_data d)
    /\ forall i pt, nth_error all_pages_text i = Some pt ->
         pt_page_number pt = i
         /\ exists bs, nth_error (page_blocks (doc_data d)) i = Some bs
                       /\ blocks pt = map span_of_raw (text_spans_of_blocks bs).
Proof.
  intros Ho Hn.
  set (n := pd_page_count (doc_data d)) in *.
  set (g := fun i => mkPageText i (page_text_blocks_of (nth i (page_blocks (doc_data d)) []))).
  exists (map g (seq 0 n)). split; [|split].
  - assert (Hpc : doc_page_count d w = (inr n, w)).
    { unfold doc_page_count, bind. rewrite (ensure_open_open d w Ho). reflexivity. }
    unfold extract_text_with_positions. rewrite (bind_step _ _ _ _ _ Hpc).
    apply map_m_pure. intros i Hi. apply in_seq in Hi.
    assert (Hb : doc_page_blocks d i w = (inr (nth i (page_blocks (doc_data d)) []), w)).
    { unfold doc_page_blocks, bind. rewrite (ensure_open_open d w Ho).
      rewrite (nth_error_nth' _ [] (ltac:(lia) : i < List.length (page_blocks (doc_data d)))).
      reflexivity. }
    cbv beta. rewrite (bind_step _ _ _ _ _ Hb). reflexivity.
  - now rewrite length_map, length_seq.
  - intros i pt H. apply nth_error_map_seq in H as [Hi ->]. split; [reflexivity|].
    exists (nth i (page_blocks (doc_data d)) []). split.
    + apply nth_error_nth'. lia.
    + apply page_text_blocks_of_spans.
Qed.

Lemma sparse_tables_sorted (i : nat) (per_page : list (list table)) :
  StronglySorted lt (map page_number (sparse_tables i per_page)).
Proof.
  revert i; induction per_page as [|ts r IH]; intros i; simpl; [constructor|].
  destruct ts as [|t ts']; [apply IH|]. cbn [map page_number]. constructor; [apply IH|].
  apply Forall_forall. intros k Hk. apply in_map_iff in Hk as [e [<- He]].
  apply in_sparse_tables in He. lia.
Qed.

(** [extract_tables_with_pdfplumber] returns exactly the pages on which
    pdfplumber found a table, in strictly increasing page order, each with
    the tables of its page. *)
Theorem extract_tables_nonempty_pages (X : externals) (file_path : pystr) (w : world)
    (contents : list byte) (per_page : list (list table)) :
  option_map snd (find (fun f => pystr_eqb (fst f) file_path) (files w)) = Some contents ->
  plumber_tables X contents = inr per_page ->
  exists all_tables,
    extract_tables_with_pdfplumber X file_path w =
      (inr all_tables, set_trace (trace w ++ [EvPdfplumber file_path]) w)
    /\ StronglySorted lt (map page_number all_tables)
    /\ (forall k, In k (map page_number all_tables) <-> nth k per_page [] <> [])
    /\ (forall e, In e all_tables -> tables e = nth (page_number e) per_page []).
Proof.
  intros Hf Hp. exists (sparse_tables 0 per_page). split; [|split; [|split]].
  - cbv beta iota delta [extract_tables_with_pdfplumber bind emit read_file get_world ret].
    cbn [files set_trace]. rewrite Hf, Hp. reflexivity.
  - apply sparse_tables_sorted.
  - intros k. split.
    + intros Hk. apply in_map_iff in Hk as [e [<- He]].
      apply in_sparse_tables in He as [_ [E Hne]]. rewrite Nat.sub_0_r in E. congruence.
    + intros Hk. apply in_map_iff. eexists. split; [|exact (sparse_tables_has_page 0 k per_page Hk)].
      reflexivity.
  - intros e He. apply in_sparse_tables in He as [_ [E _]]. now rewrite Nat.sub_0_r in E.
Qed.

Lemma app_char_inj (c : N) (a b a' b' : pystr) :
  ~ In c a -> ~ In c a' -> a ++ c :: b = a' ++ c :: b' -> a = a' /\ b = b'.
Proof.
  revert a'; induction a as [|x a IH]; intros a' Ha Ha' H; destruct a' as [|y a']; simpl in *.
  - injection H as ->. auto.
  - injection H as -> _. exfalso. apply Ha'. left. reflexivity.
  - injection H as <- _. exfalso. apply Ha. left. reflexivity.
  - injection H as -> H. destruct (IH a') as [-> ->]; auto.
Qed.

Lemma py_str_int_chars (x : Z) : Forall (fun c => c = 45%N \/ is_digit c) (py_str_int x).
Proof.
  unfold py_str_int. destruct (x <? 0)%Z.
  - constructor; [left; reflexivity|].
    eapply Forall_impl; [|apply dec_spec]. intros c Hc. right. exact Hc.
  - eapply Forall_impl; [|apply dec_spec]. intros c Hc. right. exact Hc.
Qed.

Lemma not_in_py_str_int (c : N) (x : Z) : c <> 45%N -> (c < 48 \/ 57 < c)%N -> ~ In c (py_str_int x).
Proof.
  intros H1 H2 Hin. pose proof (py_str_int_chars x) as Hf. rewrite Forall_forall in Hf.
  destruct (Hf c Hin) as [E|E]; [contradiction|]. unfold is_digit in E. lia.
Qed.

Lemma dec_inj (a b : N) : dec a = dec b -> a = b.
Proof.
  intros H. pose proof (proj2 (dec_spec a)) as Ea. pose proof (proj2 (dec_spec b)) as Eb.
  rewrite H in Ea. congruence.
Qed.

Lemma dec_not_minus (n : N) (r : pystr) : dec n <> 45%N :: r.
Proof.
  intros H. pose proof (proj1 (dec_spec n)) as Hd. rewrite H in Hd.
  inversion Hd as [|c l Hc _]. unfold is_digit in Hc. lia.
Qed.

Lemma py_str_int_inj (x y : Z) : py_str_int x = py_str_int y -> x = y.
Proof.
  unfold py_str_int. intros H.
  destruct (Z.ltb_spec x 0), (Z.ltb_spec y 0).
  - injection H as H. apply dec_inj in H. apply (f_equal Z.of_N) in H.
    rewrite !N2Z.inj_abs_N in H. lia.
  - exfalso. symmetry in H. exact (dec_not_minus _ _ H).
  - exfalso. exact (dec_not_minus _ _ H).
  - apply dec_inj in H. apply (f_equal Z.of_N) in H. rewrite !Z2N.id in H by lia. exact H.
Qed.

Lemma image_name_inj (p p' : nat) (x x' : Z) (e e' : pystr) :
  image_name p x e = image_name p' x' e' -> p = p' /\ x = x' /\ e = e'.
Proof.
  unfold image_name. intros H. apply app_inv_head in H.
  change (lit "_") with [95%N] in H. change (lit ".") with [46%N] in H. cbn [app] in H.
  apply app_char_inj in H as [H1 H2].
  2, 3: apply not_in_digits; lia.
  apply py_str_nat_inj in H1.
  apply app_char_inj in H2 as [H2 H3].
  2, 3: apply not_in_py_str_int; [discriminate | lia].
  apply py_str_int_inj in H2. auto.
Qed.

Lemma page_names_nodup (data : pdf_data) (a k : nat) :
  NoDup (List.concat (map (fun p => map (fun x => image_name p x (snd (extract_image data x)))
                                        (nth p (page_image_xrefs data) []))
                          (seq a k)))
  <-> Forall (fun p => NoDup (nth p (page_image_xrefs data) [])) (seq a k).
Proof.
  revert a; induction k as [|k IH]; intros a; cbn [seq map List.concat].
  - split; constructor.
  - split.
    + intros H. constructor.
      * apply NoDup_app_remove_r in H. exact (NoDup_map_inv _ _ H).
      * apply IH. exact (NoDup_app_remove_l _ _ H).
    + intros H. inversion H as [|q l Hq Hl]; subst. apply NoDup_app.
      * apply NoDup_map_inj; [|exact Hq]. intros x y E. apply image_name_inj in E. tauto.
      * apply IH. exact Hl.
      * intros n Hn Hn'. apply in_map_iff in Hn as [x [<- _]].
        apply in_concat in Hn' as [l' [Hl' Hn']]. apply in_map_iff in Hl' as [p [<- Hp]].
        apply in_map_iff in Hn' as [y [E _]]. apply in_seq in Hp.
        apply image_name_inj in E. lia.
Qed.

Lemma doc_page_count_open (d : fitz_doc) (w : world) :
  ~ In (doc_id d) (closed_docs w) -> doc_page_count d w = (inr (pd_page_count (doc_data d)), w).
Proof. intros Ho. unfold doc_page_count, bind. rewrite (ensure_open_open d w Ho). reflexivity. Qed.

Lemma extract_images_eq (X : externals) (d : fitz_doc) (w : world) :
  ~ In (doc_id d) (closed_docs w) ->
  pd_page_count (doc_data d) <= List.length (page_image_xrefs (doc_data d)) ->
  extract_images X d w =
  match primary_images (doc_data d) with
  | [] => if Nat.ltb 0 (pd_page_count (doc_data d))
          then extract_images_with_fallback X (doc_name d) w else (inr [], w)
  | l => (inr l, w)
  end.
Proof.
  intros Ho Hn.
  unfold extract_images. rewrite (bind_step _ _ _ _ _ (doc_page_count_open d w Ho)).
  assert (Hm : map_m (fun page_num =>
           xrefs <- doc_get_page_images d page_num ;;
           map_m (fun xref =>
                    base_image <- doc_extract_image d xref ;;
                    ret (mkImage (image_name page_num xref (snd base_image))
                                 (fst base_image) page_num))
                 xrefs)
        (seq 0 (pd_page_count (doc_data d))) w =
      (inr (map (fun page_num =>
          map (fun xref => mkImage (image_name page_num xref (snd (extract_image (doc_data d) xref)))
                                   (fst (extract_image (doc_data d) xref)) page_num)
              (nth page_num (page_image_xrefs (doc_data d)) []))
       (seq 0 (pd_page_count (doc_data d)))), w)).
  { apply map_m_pure. intros p Hp. apply in_seq in Hp.
    assert (Hg : doc_get_page_images d p w = (inr (nth p (page_image_xrefs (doc_data d)) []), w)).
    { unfold doc_get_page_images, bind. rewrite (ensure_open_open d w Ho).
      rewrite (nth_error_nth' _ [] (ltac:(lia) : p < List.length (page_image_xrefs (doc_data d)))).
      reflexivity. }
    rewrite (bind_step _ _ _ _ _ Hg). apply map_m_pure. intros x _.
    assert (Hx : doc_extract_image d x w = (inr (extract_image (doc_data d) x), w)).
    { unfold doc_extract_image, bind. rewrite (ensure_open_open d w Ho). reflexivity. }
    rewrite (bind_step _ _ _ _ _ Hx). reflexivity. }
  cbv beta. rewrite (bind_step _ _ _ _ _ Hm). cbv zeta.
  fold (primary_images (doc_data d)).
  destruct (primary_images (doc_data d)) as [|i l]; [|reflexivity].
  rewrite (bind_step _ _ _ _ _ (doc_page_count_open d w Ho)). cbv beta.
  destruct (Nat.ltb 0 (pd_page_count (doc_data d))); reflexivity.
Qed.

(** The three ways out of [extract_images] on an open document: the images
    PyMuPDF finds when there are any, the empty list for a document without
    pages, and the Poppler fallback otherwise. *)
Theorem extract_images_paths (X : externals) (d : fitz_doc) (w : world) :
  ~ In (doc_id d) (closed_docs w) ->
  pd_page_count (doc_data d) <= List.length (page_image_xrefs (doc_data d)) ->
  (primary_images (doc_data d) <> [] ->
     extract_images X d w = (inr (primary_images (doc_data d)), w))
  /\ (primary_images (doc_data d) = [] -> pd_page_count (doc_data d) = 0 ->
     extract_images X d w = (inr [], w))
  /\ (primary_images (doc_data d) = [] -> 0 < pd_page_count (doc_data d) ->
     extract_images X d w = extract_images_with_fallback X (doc_name d) w).
Proof.
  intros Ho Hn.
  rewrite (extract_images_eq X d w Ho Hn). split; [|split].
  - intros H. destruct (primary_images (doc_data d)); [contradiction | reflexivity].
  - intros H Hz. rewrite H, Hz. reflexivity.
  - intros H Hz. rewrite H. destruct (Nat.ltb_spec 0 (pd_page_count (doc_data d))); [reflexivity | lia].
Qed.

(** When PyMuPDF finds images, the names [image_{page}_{xref}.{ext}] of
    [extract_images] are pairwise distinct exactly when no page lists the
    same xref twice. *)
Theorem extract_images_names_distinct (X : externals) (d : fitz_doc) (w : world)
    (imgs : list image_asset) (w' : world) :
  ~ In (doc_id d) (closed_docs w) ->
  pd_page_count (doc_data d) <= List.length (page_image_xrefs (doc_data d)) ->
  primary_images (doc_data d) <> [] ->
  extract_images X d w = (inr imgs, w') ->
  NoDup (map name imgs)
  <-> Forall (fun p => NoDup (nth p (page_image_xrefs (doc_data d)) []))
             (seq 0 (pd_page_count (doc_data d))).
Proof.
  intros Ho Hn Hp E. rewrite (extract_images_eq X d w Ho Hn) in E.
  destruct (primary_images (doc_data d)) as [|i l] eqn:Hpi; [contradiction|].
  injection E as <- _. rewrite <- Hpi.
  assert (Hm : map name (primary_images (doc_data d)) =
    List.concat (map (fun p => map (fun x => image_name p x (snd (extract_image (doc_data d) x)))
                                   (nth p (page_image_xrefs (doc_data d)) []))
                     (seq 0 (pd_page_count (doc_data d))))).
  { unfold primary_images. rewrite concat_map, map_map. f_equal. apply map_ext.
    intros p. rewrite map_map. reflexivity. }
  rewrite Hm. apply page_names_nodup.
Qed.

Lemma map_m_inr {A B} (f : A -> M B) (l : list A) (w w' : world) (ys : list B) :
  map_m f l w = (inr ys, w') -> Forall2 (fun x y => exists w1 w2, f x w1 = (inr y, w2)) l ys.
Proof.
  revert w w' ys; induction l as [|x l IH]; intros w w' ys H; cbn [map_m] in H.
  - unfold ret in H. injection H as <- _. constructor.
  - apply bind_inr in H as [y [w1 [H1 H]]]. apply bind_inr in H as [ys' [w2 [H2 H]]].
    unfold ret in H. injection H as <- _. constructor; eauto.
Qed.

Lemma doc_page_count_inr (d : fitz_doc) (w w' : world) (n : nat) :
  doc_page_count d w = (inr n, w') -> n = pd_page_count (doc_data d) /\ w' = w.
Proof.
  unfold doc_page_count, ensure_open, bind, get_world, raise, ret.
  destruct (existsb _ _); intros H; inversion H; auto.
Qed.

Lemma ss_const_app (l1 l2 : list nat) (a : nat) :
  Forall (fun x => x = a) l1 -> Forall (fun x => a <= x) l2 -> StronglySorted le l2 ->
  StronglySorted le (l1 ++ l2).
Proof.
  induction l1 as [|x l1 IH]; intros H1 H2 H3; simpl; [exact H3|].
  inversion H1 as [|y l Hx Hl]; subst. constructor; [apply IH; auto|].
  apply Forall_app. split.
  - eapply Forall_impl; [|exact Hl]. intros z Hz. cbv beta in *. lia.
  - exact H2.
Qed.

Lemma concat_pages_sorted (ys : list (list image_asset)) (a k : nat) :
  Forall2 (fun p y => Forall (fun z => page z = p) y) (seq a k) ys ->
  StronglySorted le (map page (List.concat ys))
  /\ Forall (fun z => a <= page z < a + k) (List.concat ys).
Proof.
  revert a ys; induction k as [|k IH]; intros a ys H; cbn [seq] in H.
  - inversion H; subst. split; constructor.
  - inversion H as [|p y l ys' Hy Hys]; subst. destruct (IH (S a) ys' Hys) as [Hs Hb].
    cbn [List.concat]. rewrite map_app. split.
    + apply ss_const_app with (a := a); [| |exact Hs].
      * apply Forall_map. exact Hy.
      * apply Forall_map. eapply Forall_impl; [|exact Hb]. intros z Hz. cbv beta in *. lia.
    + apply Forall_app. split.
      * eapply Forall_impl; [|exact Hy]. intros z Hz. cbv beta in *. lia.
      * eapply Forall_impl; [|exact Hb]. intros z Hz. cbv beta in *. lia.
Qed.

Lemma fallback_images_page_0 (X : externals) (file_path : pystr) (w w' : world) (imgs : list image_asset) :
  extract_images_with_fallback X file_path w = (inr imgs, w') -> Forall (fun z => page z = 0) imgs.
Proof.
  unfold extract_images_with_fallback, try_except.
  cbv beta iota delta [bind emit read_file get_world ret raise].
  destruct (pdfimages_tool X _) as [e|written].
  - destruct (orb _ _); intros H; inversion H; constructor.
  - intros H. injection H as <- _. apply Forall_map. apply Forall_forall. reflexivity.
Qed.

(** Every image [extract_images] returns carries a page number below the
    page count, and the page numbers never decrease along the list. *)
Theorem extract_images_pages_in_order (X : externals) (d : fitz_doc) (w w' : world)
    (imgs : list image_asset) :
  extract_images X d w = (inr imgs, w') ->
  Forall (fun img => page img < pd_page_count (doc_data d)) imgs
  /\ StronglySorted le (map page imgs).
Proof.
  unfold extract_images. intros H.
  apply bind_inr in H as [n [w1 [H1 H]]]. apply doc_page_count_inr in H1 as [-> ->].
  apply bind_inr in H as [per_page [w2 [H2 H]]]. apply map_m_inr in H2.
  assert (Hp : Forall2 (fun p y => Forall (fun z => page z = p) y)
                 (seq 0 (pd_page_count (doc_data d))) per_page).
  { eapply Forall2_impl; [|exact H2]. intros p y [v1 [v2 Hv]].
    apply bind_inr in Hv as [xrefs [v3 [_ Hv]]]. apply map_m_inr in Hv.
    induction Hv as [|x z xs zs Hz _ IH]; constructor; [|exact IH].
    destruct Hz as [u1 [u2 Hz]]. apply bind_inr in Hz as [b [u3 [_ Hz]]].
    unfold ret in Hz. injection Hz as <- _. reflexivity. }
  destruct (concat_pages_sorted per_page 0 _ Hp) as [Hs Hb].
  cbv zeta in H. destruct (List.concat per_page) as [|i l] eqn:Hc.
  - apply bind_inr in H as [pc [w3 [H3 H]]]. apply doc_page_count_inr in H3 as [-> ->].
    destruct (Nat.ltb_spec 0 (pd_page_count (doc_data d))) as [Hlt|Hge].
    + apply fallback_images_page_0 in H. split.
      * eapply Forall_impl; [|exact H]. intros z Hz. cbv beta in *. lia.
      * rewrite <- (app_nil_r (map page imgs)).
        apply ss_const_app with (a := 0); [apply Forall_map; exact H | constructor | constructor].
    + unfold ret in H. injection H as <- _. split; constructor.
  - unfold ret in H. injection H as <- _. split; [|exact Hs].
    eapply Forall_impl; [|exact Hb]. intros z Hz. cbv beta in *. lia.
Qed.

(** ** [main.py]: the download name and the responses *)

Lemma last_index_of_spec (c : N) (p : pystr) (i : nat) (acc : option nat) (k : nat) :
  last_index_of c p i acc = Some k ->
  (acc = Some k /\ ~ In c p)
  \/ (i <= k /\ nth_error p (k - i) = Some c /\ forall j, k - i < j -> nth_error p j <> Some c).
Proof.
  revert i acc; induction p as [|x p IH]; intros i acc H; cbn [last_index_of] in H.
  - left. split; [exact H | intros []].
  - destruct (IH _ _ H) as [[Ha Hn]|[Hle [Hk Hj]]].
    + destruct (N.eqb_spec x c) as [->|Hne].
      * right. injection Ha as <-. rewrite Nat.sub_diag. split; [lia|]. split; [reflexivity|].
        intros j Hj E. destruct j as [|j]; [lia|]. cbn [nth_error] in E. exact (Hn (nth_error_In _ _ E)).
      * left. split; [exact Ha|]. intros [E|E]; [congruence | contradiction].
    + right. split; [lia|]. replace (k - i) with (S (k - S i)) by lia. split; [exact Hk|].
      intros j Hj' E. destruct j as [|j]; [lia|]. exact (Hj j ltac:(lia) E).
Qed.

Lemma last_index_of_none (c : N) (p : pystr) (i : nat) (acc : option nat) :
  last_index_of c p i acc = None -> acc = None /\ ~ In c p.
Proof.
  revert i acc; induction p as [|x p IH]; intros i acc H; cbn [last_index_of] in H.
  - split; [exact H | intros []].
  - destruct (IH _ _ H) as [Ha Hn]. destruct (N.eqb_spec x c) as [->|Hne]; [discriminate|].
    split; [exact Ha|]. intros [E|E]; [congruence | contradiction].
Qed.

Lemma not_in_skipn_after (c : N) (p : pystr) (k : nat) :
  (forall j, k < j -> nth_error p j <> Some c) -> ~ In c (skipn (S k) p).
Proof.
  intros H Hin. apply In_nth_error in Hin as [j E]. rewrite nth_error_skipn in E.
  exact (H (S k + j) ltac:(lia) E).
Qed.

(** The download name's stem: [os.path.splitext(p)[0]] is a prefix of [p],
    and what it strips is empty or a dot followed by a text with no dot and
    no slash. *)
Theorem splitext_root_split (p : pystr) :
  exists ext, p = splitext_root p ++ ext
    /\ (ext = [] \/ exists r, ext = 46%N :: r /\ ~ In 46%N r /\ ~ In 47%N r).
Proof.
  unfold splitext_root.
  destruct (last_index_of 46 p 0 None) as [dot|] eqn:Hd.
  2: { exists []. rewrite app_nil_r. auto. }
  destruct (last_index_of_spec _ _ _ _ _ Hd) as [[Ha _]|[_ [Hdot Hafter]]]; [discriminate|].
  rewrite Nat.sub_0_r in Hdot, Hafter.
  destruct (Nat.leb _ dot && existsb _ _)%bool eqn:Hc.
  2: { exists []. rewrite app_nil_r. auto. }
  apply andb_prop in Hc as [Hle _]. apply Nat.leb_le in Hle.
  exists (skipn dot p). split; [symmetry; apply firstn_skipn|]. right.
  exists (skipn (S dot) p).
  split; [|split].
  - rewrite <- (firstn_skipn 1 (skipn dot p)), skipn_skipn.
    replace (firstn 1 (skipn dot p)) with [46%N]; [reflexivity|].
    rewrite <- (firstn_skipn 1 (skipn dot p)) at 1.
    pose proof (nth_error_skipn dot p 0) as E. rewrite Nat.add_0_r, Hdot in E.
    destruct (skipn dot p) as [|y l]; [discriminate|]. injection E as ->. reflexivity.
  - exact (not_in_skipn_after _ _ _ Hafter).
  - destruct (last_index_of 47 p 0 None) as [s|] eqn:Hs.
    + destruct (last_index_of_spec _ _ _ _ _ Hs) as [[Ha _]|[_ [_ Hs']]]; [discriminate|].
      rewrite Nat.sub_0_r in Hs'. apply not_in_skipn_after. intros j Hj. apply Hs'. lia.
    + apply last_index_of_none in Hs as [_ Hn]. intros Hin. apply Hn.
      rewrite <- (firstn_skipn (S dot) p); apply in_or_app; right; exact Hin.
Qed.

Lemma cleanup_error (w w' : world) (e : exn) :
  cleanup w = (inl e, w') -> e = ValueError "document closed".
Proof.
  cbv [cleanup bind get_world ret raise read_file emit modify_world doc_page_count doc_close ensure_open].
  destruct (frame_doc w) as [d|].
  - destruct (existsb (Nat.eqb (doc_id d)) (closed_docs w)).
    + intros H. injection H as <- _. reflexivity.
    + destruct (Nat.eqb (pd_page_count (doc_data d)) 0); cbv beta iota zeta;
      [|cbn [closed_docs set_trace]; destruct (existsb (Nat.eqb (doc_id d)) (closed_docs w))];
      cbv beta iota zeta;
      intros H; repeat (match type of H with context [match ?x with _ => _ end] => destruct x end);
      first [discriminate | injection H as <- _; reflexivity].
  - intros H; repeat (match type of H with context [match ?x with _ => _ end] => destruct x end);
    discriminate.
Qed.

Lemma convert_pdf_to_html_errors (X : externals) (file : upload_file) (w w' : world) (e : exn) :
  convert_pdf_to_html X file w = (inl e, w') ->
  e = HTTPException 400 (lit "Invalid file type.")
  \/ e = HTTPException 413 (lit "File size exceeds limit.")
  \/ e = HTTPException 500 INTERNAL_ERROR
  \/ e = ValueError "document closed"
  \/ isinstance e "PDFProcessingError" = true
  \/ isinstance e "Exception" = false.
Proof.
  unfold convert_pdf_to_html.
  destruct (negb (pystr_eqb (content_type file) (lit "application/pdf"))).
  { unfold raise. intros H. injection H as <- _. auto. }
  unfold bind at 1. cbv [emit]. cbv beta iota.
  destruct (N.ltb MAX_FILE_SIZE (N.of_nat (List.length (upload_bytes file)))).
  { unfold raise. intros H. injection H as <- _. auto 6. }
  cbv [bind modify_world]. cbv beta iota.
  unfold try_finally.
  match goal with |- context [match try_except ?b ?h ?v with _ => _ end] =>
    destruct (try_except b h v) as [[e0|r] w3] eqn:Hb end;
  destruct (cleanup w3) as [[e1|[]] w4] eqn:Hc;
  intros H; try discriminate; injection H as <- _;
  try (right; right; right; left; exact (cleanup_error _ _ _ Hc)).
  unfold try_except in Hb.
  match type of Hb with (match ?t with _ => _ end) = _ =>
    destruct t as [[e2|r2] w5] end; [|discriminate Hb].
  unfold convert_handler in Hb.
  destruct (isinstance e2 "PDFProcessingError") eqn:Hp.
  { unfold raise in Hb. injection Hb as <- _. auto 6. }
  destruct (isinstance e2 "Exception") eqn:He.
  { unfold raise in Hb. injection Hb as <- _. auto 6. }
  injection Hb as <- _. auto 6.
Qed.

Lemma convert_pdf_to_html_success (X : externals) (file : upload_file) (w w' : world) (r : response) :
  convert_pdf_to_html X file w = (inr r, w') ->
  exists archive, r = StreamingResponse archive (download_filename_of (filename file)).
Proof.
  unfold convert_pdf_to_html.
  destruct (negb (pystr_eqb (content_type file) (lit "application/pdf"))).
  { unfold raise. discriminate. }
  intros H. apply bind_inr in H as [? [? [_ H]]].
  destruct (N.ltb MAX_FILE_SIZE (N.of_nat (List.length (upload_bytes file)))).
  { discriminate H. }
  apply bind_inr in H as [? [? [_ H]]]. apply bind_inr in H as [? [w3 [_ H]]].
  unfold try_finally in H.
  destruct (try_except _ convert_handler w3) as [[e|r1] w4] eqn:Ht;
    destruct (cleanup w4) as [[e1|[]] w5]; try discriminate H.
  injection H as <- _. unfold try_except in Ht.
  match type of Ht with (match ?t with _ => _ end) = _ =>
    destruct t as [[e2|r2] w6] eqn:Hb end.
  - unfold convert_handler in Ht.
    destruct (isinstance e2 "PDFProcessingError"); [discriminate Ht|].
    destruct (isinstance e2 "Exception"); discriminate Ht.
  - injection Ht as <- _. cbv zeta in Hb.
    repeat (cbv beta in Hb; apply bind_inr in Hb as [? [? [_ Hb]]]).
    cbv beta in Hb. unfold ret in Hb. injection Hb as <- _. eexists. reflexivity.
Qed.

(** Every request to the endpoint gets an answer, and the answer is the
    archive under [converted_{stem}.zip], one of the 400, 413 and 500
    [HTTPException] bodies the endpoint raises, the middleware's 500
    [message] body, or the [{error: {type, message}}] body of a
    [PDFProcessingError]. *)
Theorem app_handle_responses (X : externals) (file : upload_file) (w : world) :
  exists r w', app_handle X file w = (inr r, w')
    /\ ((exists archive, r = StreamingResponse archive (download_filename_of (filename file)))
        \/ r = JSONResponse 400 (detail_body (lit "Invalid file type."))
        \/ r = JSONResponse 413 (detail_body (lit "File size exceeds limit."))
        \/ r = JSONResponse 500 (detail_body INTERNAL_ERROR)
        \/ r = JSONResponse 500 (JObj [(lit "message", JStr INTERNAL_ERROR)])
        \/ exists cls msg, isinstance (PyExc cls msg) "PDFProcessingError" = true
                           /\ r = pdf_processing_exception_handler cls msg).
Proof.
  unfold app_handle.
  destruct (convert_pdf_to_html X file w) as [[e|r] w'] eqn:Hc.
  - exists (match e with
            | HTTPException status detail => JSONResponse status (JObj [(lit "detail", JStr detail)])
            | PyExc cls message =>
                if isinstance e "PDFProcessingError"
                then pdf_processing_exception_handler cls message
                else JSONResponse 500 (JObj [(lit "message", JStr INTERNAL_ERROR)])
            end), w'.
    split; [reflexivity|].
    destruct e as [status detail|cls message].
    + destruct (convert_pdf_to_html_errors _ _ _ _ _ Hc)
        as [E|[E|[E|[E|[E|E]]]]]; try discriminate E.
      * injection E as -> ->. right; left. reflexivity.
      * injection E as -> ->. right; right; left. reflexivity.
      * injection E as -> ->. right; right; right; left. reflexivity.
    + destruct (isinstance (PyExc cls message) "PDFProcessingError") eqn:Hp.
      * right; right; right; right; right. exists cls, message. split; [exact Hp | reflexivity].
      * right; right; right; right; left. reflexivity.
  - exists r, w'. split; [reflexivity|]. left.
    exact (convert_pdf_to_html_success _ _ _ _ _ Hc).
Qed.

(** ** Concrete instances *)

(** [round(2.5)] is [2]. *)
Lemma py_round_half_even_witness :
  (5#2 == inject_Z (py_round (5#2)) + (1#2))%Q /\ Z.even (py_round (5#2)) = true.
Proof.
  split.
  - vm_compute. reflexivity.
  - apply (proj2 (py_round_half_even (5#2))). left. vm_compute. reflexivity.
Defined.

(** A two-page document without text. *)
Lemma extract_text_one_entry_per_page_witness :
  let d := mkDoc 0 (lit "/tmp/tmpabc.pdf") (plain_pdf 2 [[]; []] [[]; []]) in
  exists all_pages_text,
    extract_text_with_positions d w0 = (inr all_pages_text, w0)
    /\ List.length all_pages_text = 2
    /\ forall i pt, nth_error all_pages_text i = Some pt ->
         pt_page_number pt = i
         /\ exists bs, nth_error (page_blocks (doc_data d)) i = Some bs
                       /\ blocks pt = map span_of_raw (text_spans_of_blocks bs).
Proof.
  intros d. apply (extract_text_one_entry_per_page d w0).
  - intros [].
  - simpl. lia.
Defined.

(** A two-page document with one (empty) table on its second page. *)
Lemma extract_tables_nonempty_pages_witness :
  let per_page : list (list table) := [[]; [[]]] in
  let X := mkExternals (const_llm (lit "# Page")) (fun _ => inr (plain_pdf 2 [[]; []] [[]; []]))
             (fun _ => inr per_page) (fun _ => inr []) (lit "/tmp/tmpabc.pdf") in
  let w := world_with_file (lit "/tmp/tmpabc.pdf") [Byte.x25] in
  exists all_tables,
    extract_tables_with_pdfplumber X (lit "/tmp/tmpabc.pdf") w =
      (inr all_tables, set_trace (trace w ++ [EvPdfplumber (lit "/tmp/tmpabc.pdf")]) w)
    /\ StronglySorted lt (map page_number all_tables)
    /\ (forall k, In k (map page_number all_tables) <-> nth k per_page [] <> [])
    /\ (forall e, In e all_tables -> tables e = nth (page_number e) per_page []).
Proof.
  intros per_page X w. apply (extract_tables_nonempty_pages X (lit "/tmp/tmpabc.pdf") w [Byte.x25] per_page).
  - vm_compute. reflexivity.
  - reflexivity.
Defined.

(** A two-page document with one image on its first page. *)
Lemma extract_images_paths_witness :
  let data := plain_pdf 2 [[]; []] [[7%Z]; []] in
  let X := ex_externals (inr data) (inr []) in
  let d := mkDoc 0 (lit "/tmp/tmpabc.pdf") data in
  extract_images X d w0 = (inr (primary_images data), w0).
Proof.
  intros data X d. apply (proj1 (extract_images_paths X d w0 (fun H => H) (le_n 2))).
  vm_compute. discriminate.
Defined.

(** A two-page document with one image on page 0 and two on page 1. *)
Lemma extract_images_pages_in_order_witness :
  let data := plain_pdf 2 [[]; []] [[7%Z]; [8%Z; 9%Z]] in
  let X := ex_externals (inr data) (inr []) in
  Forall (fun img => page img < 2) (primary_images data)
  /\ StronglySorted le (map page (primary_images data)).
Proof.
  intros data X.
  apply (extract_images_pages_in_order X (mkDoc 0 (lit "/tmp/tmpabc.pdf") data) w0 w0).
  vm_compute. reflexivity.
Defined.

(** The same document: its three image names are distinct. *)
Lemma extract_images_names_distinct_witness :
  let data := plain_pdf 2 [[]; []] [[7%Z]; [8%Z; 9%Z]] in
  let X := ex_externals (inr data) (inr []) in
  NoDup (map name (primary_images data)).
Proof.
  intros data X.
  apply (extract_images_names_distinct X (mkDoc 0 (lit "/tmp/tmpabc.pdf") data) w0
           (primary_images data) w0).
  - intros [].
  - simpl. lia.
  - vm_compute. discriminate.
  - vm_compute. reflexivity.
  - cbn. repeat constructor; cbn; intuition discriminate.
Defined.

(** An unencrypted upload opened from its temporary file. *)
Lemma open_pdf_open_handle_witness :
  let X := ex_externals (inr (plain_pdf 1 [[]] [[]])) (inr []) in
  let w := world_with_file (lit "/tmp/tmpabc.pdf") [Byte.x25] in
  open_pdf_from_path X (lit "/tmp/tmpabc.pdf") None w =
    (inr (mkDoc 0 (lit "/tmp/tmpabc.pdf") (plain_pdf 1 [[]] [[]])),
     set_next_doc 1 (set_trace [EvFitzOpen (lit "/tmp/tmpabc.pdf")] w)).
Proof.
  intros X w.
  apply (open_pdf_open_handle X (lit "/tmp/tmpabc.pdf") None [Byte.x25] (plain_pdf 1 [[]] [[]]) w).
  - vm_compute. reflexivity.
  - reflexivity.
  - intros [].
  - left. reflexivity.
Defined.

(** A frame with an open one-page document and its temporary file. *)
Lemma cleanup_behaviour_witness :
  let d := mkDoc 0 (lit "/tmp/tmpabc.pdf") (plain_pdf 1 [[]] [[]]) in
  let w := mkWorld [] [(lit "/tmp/tmpabc.pdf", [Byte.x25])] [] 1 [] (lit "/tmp/tmpabc.pdf") (Some d) in
  exists w', cleanup w = (inr tt, w').
Proof.
  intros d w. apply (proj2 (proj2 (cleanup_behaviour w))).
  intros d' E. injection E as <-. intros [].
Defined.
